(** * Random token augmentation layers: RandomSwaps and RandomInsertion

    A shallow embedding of [keras_nlp/layers/random_swaps.py] and
    [keras_nlp/layers/random_insertion.py].  Tensors of tokens are lists,
    ragged batches are lists of lists, Python exceptions are the [Raise]
    case of a result type, keyword dictionaries and exported configurations
    are finite maps keyed by strings, and the random number generators are
    explicit state that is threaded through every draw. *)

From Stdlib Require Import ZArith QArith Qround.
From stdpp Require Import base option list strings pretty gmap.

Local Open Scope string_scope.
Local Open Scope nat_scope.

(** ** Tokens, dtypes and Python values *)

(** A token is a UTF-8 string or an integer id.  An id is a number: the
    width of the integer dtype of a tensor, and the casts TensorFlow applies
    between dtypes, are not followed. *)
Inductive Token :=
| TStr (s : string)
| TInt (z : Z).

#[global] Instance Token_eq_dec : EqDecision Token.
Proof. solve_decision. Defined.

(** The TensorFlow dtypes the two constructors can be handed. *)
Inductive DType :=
| tf_float16 | tf_float32 | tf_float64 | tf_bfloat16
| tf_int8 | tf_int16 | tf_int32 | tf_int64
| tf_uint8 | tf_uint16 | tf_uint32 | tf_uint64
| tf_bool | tf_string | tf_complex64 | tf_complex128
| tf_qint8 | tf_quint8 | tf_qint16 | tf_quint16 | tf_qint32.

#[global] Instance DType_eq_dec : EqDecision DType.
Proof. solve_decision. Defined.

(** [DType.is_integer]: the non-quantized integer types. *)
Definition is_integer (d : DType) : bool :=
  match d with
  | tf_int8 | tf_int16 | tf_int32 | tf_int64
  | tf_uint8 | tf_uint16 | tf_uint32 | tf_uint64 => true
  | _ => false
  end.

Definition dtype_name (d : DType) : string :=
  match d with
  | tf_float16 => "float16" | tf_float32 => "float32"
  | tf_float64 => "float64" | tf_bfloat16 => "bfloat16"
  | tf_int8 => "int8" | tf_int16 => "int16"
  | tf_int32 => "int32" | tf_int64 => "int64"
  | tf_uint8 => "uint8" | tf_uint16 => "uint16"
  | tf_uint32 => "uint32" | tf_uint64 => "uint64"
  | tf_bool => "bool" | tf_string => "string"
  | tf_complex64 => "complex64" | tf_complex128 => "complex128"
  | tf_qint8 => "qint8" | tf_quint8 => "quint8"
  | tf_qint16 => "qint16" | tf_quint16 => "quint16"
  | tf_qint32 => "qint32"
  end.

Definition all_dtypes : list DType :=
  [ tf_float16; tf_float32; tf_float64; tf_bfloat16;
    tf_int8; tf_int16; tf_int32; tf_int64;
    tf_uint8; tf_uint16; tf_uint32; tf_uint64;
    tf_bool; tf_string; tf_complex64; tf_complex128;
    tf_qint8; tf_quint8; tf_qint16; tf_quint16; tf_qint32 ].

(** The Python values that occur as keyword arguments and as entries of an
    exported configuration.  Function-valued entries are opaque
    references. *)
Inductive Value :=
| VNone
| VBool (b : bool)
| VInt (z : Z)
| VFloat (q : Q)
| VStr (s : string)
| VDType (d : DType)
| VList (l : list Token)
| VSkipFn (f : Token → bool)
| VInsertionFn (f : Token → Token).

(** ** Exceptions *)

Inductive Error :=
| ValueError (msg : string)
| TypeError (msg : string)
| InvalidArgumentError (msg : string)
| NotFoundError (msg : string).

Inductive result (A : Type) :=
| Ok (a : A)
| Raise (e : Error).
Arguments Ok {A} a.
Arguments Raise {A} e.

#[global] Instance result_ret : MRet result := λ A a, Ok a.
#[global] Instance result_bind : MBind result := λ A B f m,
  match m with
  | Ok a => f a
  | Raise e => Raise e
  end.

Definition raises {A} (r : result A) : Prop :=
  match r with Ok _ => False | Raise _ => True end.

Definition succeeds {A} (r : result A) : Prop :=
  match r with Ok _ => True | Raise _ => False end.

Definition is_ValueError {A} (r : result A) : Prop :=
  match r with Raise (ValueError _) => True | _ => False end.

(** [tf.dtypes.as_dtype]: a [DType] is returned as it is, a string is looked
    up by name, anything else is a [TypeError]. *)
Definition as_dtype (v : Value) : result DType :=
  match v with
  | VDType d => Ok d
  | VStr s =>
      match filter (λ d, dtype_name d = s) all_dtypes with
      | d :: _ => Ok d
      | [] => Raise (TypeError "Cannot convert value to a TensorFlow DType.")
      end
  | _ => Raise (TypeError "Cannot convert value to a TensorFlow DType.")
  end.

(** The message of the [ValueError] for a dtype that is not accepted. *)
Definition dtype_message (d : DType) : string :=
  "Output dtype must be an integer type or a string. Received: dtype=<dtype: '"
    ++ dtype_name d ++ "'>".

(** The dtype check both constructors start with.  The result is the keyword
    dictionary handed on to [super().__init__]. *)
Definition check_dtype (kwargs : gmap string Value) : result (gmap string Value) :=
  match kwargs !! "dtype" with
  | None | Some VNone => Ok (<["dtype" := VDType tf_int32]> kwargs)
  | Some v =>
      dtype ← as_dtype v;
      if negb (is_integer dtype) && negb (bool_decide (dtype = tf_string))
      then Raise (ValueError (dtype_message dtype))
      else Ok kwargs
  end.

(** ** Tensors *)

(** The inputs of [call]: a scalar, a tensor of rank 1 or 2, or something of
    higher rank.  [call] is a [tf.function]: it is traced on the static shape
    of its input before it runs, so the model keeps apart the inputs whose
    row length is known to the trace and those whose row length is not.
    [Vector l] and [Ragged rows] are a rank-1 tensor of shape [[None]] (an
    element of a dataset of ragged rows) and a [tf.RaggedTensor] (or a dense
    rank-2 tensor of unknown row length).  [DenseVector l] and
    [DenseMatrix row_length rows] are dense tensors of fully known shape, as
    an eager call on a constant passes them; every row of a [DenseMatrix]
    has [row_length] tokens. *)
Inductive Tensor :=
| Scalar (t : Token)
| Vector (l : list Token)
| Ragged (rows : list (list Token))
| HigherRank (extra : nat)
| DenseVector (l : list Token)
| DenseMatrix (row_length : nat) (rows : list (list Token)).

Definition rank (x : Tensor) : nat :=
  match x with
  | Scalar _ => 0
  | Vector _ | DenseVector _ => 1
  | Ragged _ | DenseMatrix _ _ => 2
  | HigherRank extra => 3 + extra
  end.

(** The sequences a tensor of rank 1 or 2 holds, one per example. *)
Definition examples (x : Tensor) : list (list Token) :=
  match x with
  | Vector l | DenseVector l => [l]
  | Ragged rows | DenseMatrix _ rows => rows
  | _ => []
  end.

(** The length of the rows as the trace of [call] knows it. *)
Definition static_row_length (x : Tensor) : option nat :=
  match x with
  | DenseVector l => Some (length l)
  | DenseMatrix row_length _ => Some row_length
  | _ => None
  end.

(** [x[i]] on a rank-1 tensor; out of range is an error. *)
Definition getitem {A} (l : list A) (i : nat) : result A :=
  match l !! i with
  | Some a => Ok a
  | None => Raise (InvalidArgumentError "slice index out of bounds")
  end.

(** [tf.gather(params, indices)]. *)
Definition gather {A} (params : list A) (indices : list nat) : result (list A) :=
  mapM (M := result) (getitem params) indices.

(** ** Ragged tensors

    A ragged rank-2 tensor is a list of rows; TensorFlow stores it as the
    concatenated [flat_values] with the [row_splits] that cut them. *)
Section ragged.
Context {A : Type}.

Definition flat_values (rows : list (list A)) : list A := concat rows.

Fixpoint splits_from (start : nat) (rows : list (list A)) : list nat :=
  match rows with
  | [] => []
  | r :: rs => (start + length r) :: splits_from (start + length r) rs
  end.

Definition row_splits (rows : list (list A)) : list nat :=
  0 :: splits_from 0 rows.

Fixpoint rows_of_splits {B} (values : list B) (start : nat) (ends : list nat)
  : list (list B) :=
  match ends with
  | [] => []
  | e :: es => take (e - start) (drop start values) :: rows_of_splits values e es
  end.

Fixpoint nondecreasing (start : nat) (ends : list nat) : bool :=
  match ends with
  | [] => true
  | e :: es => bool_decide (start ≤ e) && nondecreasing e es
  end.

(** [tf.RaggedTensor.from_row_splits(values, row_splits)] with its default
    [validate=True]: the splits start at 0, do not decrease, and end at the
    number of values. *)
Definition from_row_splits {B} (values : list B) (splits : list nat)
  : result (list (list B)) :=
  match splits with
  | 0 :: ends =>
      if nondecreasing 0 ends
         && bool_decide (last splits = Some (length values))
      then Ok (rows_of_splits values 0 ends)
      else Raise (InvalidArgumentError
             "Arguments to _from_row_partition do not form a valid RaggedTensor")
  | _ => Raise (InvalidArgumentError
             "Arguments to from_row_splits do not form a valid RaggedTensor")
  end.

(** [rows.with_flat_values(values)]: the same row partition over new flat
    values. *)
Definition with_flat_values {B} (rows : list (list A)) (values : list B)
  : list (list B) :=
  rows_of_splits values 0 (splits_from 0 rows).
End ragged.

(** [ragged_array_ops.boolean_mask(data, mask)] on two ragged tensors with the
    same row partition: each row keeps the entries whose mask bit is set. *)
Definition mask_row {A} (row : list A) (mask : list bool) : list A :=
  (filter (λ p, p.2 = true) (zip row mask)).*1.

Definition boolean_mask {A} (data : list (list A)) (mask : list (list bool))
  : list (list A) :=
  zip_with mask_row data mask.

(** [tf.map_fn(fn, elems)] where [fn] advances a piece of state (a random
    number generator): the rows are handled in order, and the first
    exception ends the whole call. *)
Fixpoint map_fn {A B S} (fn : A → S → result (B * S)) (elems : list A) (s : S)
  : result (list B * S) :=
  match elems with
  | [] => Ok ([], s)
  | x :: xs =>
      '(y, s1) ← fn x s;
      '(ys, s2) ← map_fn fn xs s1;
      Ok (y :: ys, s2)
  end.

(** Rank handling shared by the two [call] methods: rank 1 gets a leading
    axis, rank 2 is taken as it is, anything else is a [ValueError]. *)
Definition normalize_rank (inputs : Tensor) : result (bool * list (list Token)) :=
  match inputs with
  | Vector l | DenseVector l => Ok (true, [l])
  | Ragged rows | DenseMatrix _ rows => Ok (false, rows)
  | _ => Raise (ValueError
             ("Input must either be rank 1 or rank 2. Received input with rank="
                ++ pretty (rank inputs)))
  end.

(** ** Randomness

    The bits TensorFlow's generators put out are a parameter of the model.
    [stateless_bits seed shape i] is the raw value of element [i] of a
    stateless draw of [shape] elements made under [seed].  A stateful
    [tf.random.uniform] op built with an op seed keeps a state of its own,
    a [random_op]: [random_op_bits seed op shape i] is element [i] of the
    draw it makes in state [op], and [random_op_advance op shape] the state
    it is left in.  [binomial_sample seed shape i count probs] is element
    [i] of a [stateless_binomial] draw.  A binomial sample never exceeds its
    count and equals it when the probability is 1. *)
Class RandomBackend := {
  stateless_bits : Z * nat → nat → nat → nat;
  random_op : Type;
  random_op_bits : Z → random_op → nat → nat → nat;
  random_op_advance : random_op → nat → random_op;
  binomial_sample : Z * nat → nat → nat → nat → Q → nat;
  binomial_sample_le : ∀ seed shape i count probs,
    binomial_sample seed shape i count probs ≤ count;
  binomial_sample_certain : ∀ seed shape i count,
    binomial_sample seed shape i count 1%Q = count;
}.

(** Integer uniform draws reduce raw bits into [[0, maxval)].  An empty
    output is produced without looking at the bounds; otherwise
    [minval < maxval] is required. *)
Definition uniform_int (bits : nat → nat) (shape maxval : nat) : result (list nat) :=
  if bool_decide (shape = 0) then Ok []
  else if bool_decide (maxval = 0)
       then Raise (InvalidArgumentError "Need minval < maxval")
       else Ok ((λ i, bits i `mod` maxval) <$> seq 0 shape).

(** [tf.random.Generator]: a key derived from the seed and a counter that
    every [make_seeds] advances. *)
Record Generator := { key : Z; counter : nat }.

Definition from_seed (seed : Z) : Generator := {| key := seed; counter := 0 |}.

Definition make_seeds (g : Generator) : (Z * nat) * Generator :=
  ((key g, counter g), {| key := key g; counter := S (counter g) |}).

(** What the constructors take from their surroundings: the value
    [random.randint(1, 1e9)] falls back on when no seed is given, and the
    name keras makes up for a layer that is given none. *)
Record Env := { entropy : Z; unique_object_name : string → string }.

Definition randint (env : Env) (lo hi : Z) : Z :=
  (lo + entropy env `mod` (hi - lo + 1))%Z.

(** keras' base [Layer]: name, trainable flag and dtype.  [dtype] is present
    in [kwargs] once [check_dtype] has run. *)
Record Layer := { name : string; trainable : Value; dtype : Value }.

Definition Layer__init__ (env : Env) (class_name : string)
    (name : option string) (kwargs : gmap string Value) : Layer :=
  {| name := default (unique_object_name env class_name) name;
     trainable := default (VBool true) (kwargs !! "trainable");
     dtype := default VNone (kwargs !! "dtype") |}.

(** The dtype as [Layer.get_config] exports it: by name. *)
Definition dtype_entry (l : Layer) : Value :=
  match as_dtype (dtype l) with
  | Ok d => VStr (dtype_name d)
  | Raise _ => dtype l
  end.

(** [Layer.get_config]. *)
Definition Layer_get_config (l : Layer) : gmap string Value :=
  {[ "name" := VStr (name l);
     "trainable" := trainable l;
     "dtype" := dtype_entry l ]}.

(** Rates are rationals; their comparisons are decidable. *)
#[global] Instance Qlt_dec : RelDecision Qlt.
Proof.
  intros x y. destruct (Qlt_le_dec x y) as [Hlt|Hle].
  - left. exact Hlt.
  - right. intros Hlt. exact (Qle_not_lt _ _ Hle Hlt).
Defined.

(** Python's [[a, b, c].count(None)]. *)
Definition count_None (supplied : list bool) : nat :=
  length (filter (λ b, b = false) supplied).

(** Reading keyword arguments back out of a configuration dictionary. *)
Definition kw_optional {A} (read : Value → option A) (what : string)
    (v : option Value) : result (option A) :=
  match v with
  | None | Some VNone => Ok None
  | Some v =>
      match read v with
      | Some a => Ok (Some a)
      | None => Raise (TypeError ("unexpected value for " ++ what))
      end
  end.

Definition read_int (v : Value) : option Z :=
  match v with VInt z => Some z | _ => None end.
Definition read_number (v : Value) : option Q :=
  match v with VFloat q => Some q | VInt z => Some (inject_Z z) | _ => None end.
Definition read_str (v : Value) : option string :=
  match v with VStr s => Some s | _ => None end.
Definition read_list (v : Value) : option (list Token) :=
  match v with VList l => Some l | _ => None end.
Definition read_skip_fn (v : Value) : option (Token → bool) :=
  match v with VSkipFn f => Some f | _ => None end.
Definition read_insertion_fn (v : Value) : option (Token → Token) :=
  match v with VInsertionFn f => Some f | _ => None end.

Definition export {A} (wrap : A → Value) (o : option A) : Value :=
  from_option wrap VNone o.

(** Python truthiness of an optional list: neither [None] nor empty. *)
Definition truthy {A} (o : option (list A)) : bool :=
  match o with Some (_ :: _) => true | _ => false end.

Definition is_string (token : Token) : bool :=
  match token with TStr _ => true | TInt _ => false end.

Definition is_int (token : Token) : bool :=
  match token with TStr _ => false | TInt _ => true end.

(** [tf.lookup.StaticHashTable(tf.lookup.KeyValueTensorInitializer(
    tf.convert_to_tensor(keys), tf.convert_to_tensor([True] * len(keys))),
    default_value=False)].  [convert_to_tensor] takes a list of strings or a
    list of integers, not a mixed one, and TensorFlow has a hash table
    kernel from strings to booleans and none from integers to booleans.  A
    table that is built is held as the list of its keys. *)
Definition StaticHashTable_of (keys : list Token) : result (list Token) :=
  if forallb is_string keys then Ok keys
  else if forallb is_int keys
  then Raise (NotFoundError
         "No OpKernel was registered to support Op 'HashTableV2' with these attrs.")
  else Raise (ValueError
         "Can't convert Python sequence with mixed types to Tensor.").

(** [if self.skip_list: self.StaticHashTable = ...], the last statement of
    both constructors. *)
Definition build_table (skip_list : option (list Token))
  : result (option (list Token)) :=
  if truthy skip_list
  then keys ← StaticHashTable_of (default [] skip_list); Ok (Some keys)
  else Ok None.
#[global] Arguments build_table : simpl never.

(** * RandomSwaps *)
Module RandomSwaps.

(** The arguments of [RandomSwaps.__init__]. *)
Record Args := {
  a_swaps : Z;
  a_skip_list : option (list Token);
  a_skip_fn : option (Token → bool);
  a_py_skip_fn : option (Token → bool);
  a_seed : option Z;
  a_name : option string;
  a_kwargs : gmap string Value;
}.

(** The attributes of a constructed layer.  [call] does not use
    [_generator]: it draws from a [tf.random.uniform] op seeded with
    [seed]. *)
Record t := {
  base : Layer;
  swaps : Z;
  seed : Z;
  _generator : Generator;
  skip_list : option (list Token);
  skip_fn : option (Token → bool);
  py_skip_fn : option (Token → bool);
  StaticHashTable : option (list Token);
}.

Definition __init__ (env : Env) (a : Args) : result t :=
  kwargs ← check_dtype (a_kwargs a);
  let base := Layer__init__ env "random_swaps" (a_name a) kwargs in
  let seed := default (randint env 1 1000000000) (a_seed a) in
  if bool_decide (a_swaps a < 0)%Z
  then Raise (ValueError "Swaps must be non negative")
  else if bool_decide
            (count_None [bool_decide (is_Some (a_skip_list a));
                         bool_decide (is_Some (a_skip_fn a));
                         bool_decide (is_Some (a_py_skip_fn a))] < 2)
  then Raise (ValueError
         "Exactly one of skip_list, skip_fn, py_skip_fn must be provided.")
  else
    StaticHashTable ← build_table (a_skip_list a);
    Ok {| base := base;
          swaps := a_swaps a;
          seed := seed;
          _generator := from_seed seed;
          skip_list := a_skip_list a;
          skip_fn := a_skip_fn a;
          py_skip_fn := a_py_skip_fn a;
          StaticHashTable := StaticHashTable |}.

Section call.
Context `{RandomBackend}.
Variable self : t.

(** The mask of skip-protected tokens over the flat values, when a skip
    mechanism is active.  The keys of a table are strings; a token of
    another kind is not among them. *)
Definition skip_masks (values : list Token) : option (list bool) :=
  if truthy (skip_list self)
  then Some ((λ tok, bool_decide (tok ∈ default [] (StaticHashTable self)))
               <$> values)
  else match skip_fn self with
       | Some fn => Some (fn <$> values)
       | None =>
           match py_skip_fn self with
           | Some fn => Some (fn <$> values)
           | None => None
           end
       end.

(** One turn of the loop in [_swap].  [op] is the state of the
    [tf.random.uniform] op. *)
Definition swap_once (positions : list nat) (op : random_op)
  : result (list nat * random_op) :=
  index ← uniform_int (random_op_bits (seed self) op (length positions))
            (length positions) (length positions);
  index1 ← getitem index 0;
  index2 ← getitem index 1;
  at2 ← getitem positions index2;
  at1 ← getitem positions index1;
  Ok (<[index2 := at1]> (<[index1 := at2]> positions),
      random_op_advance op (length positions)).

Fixpoint swap_loop (n : nat) (positions : list nat) (op : random_op)
  : result (list nat * random_op) :=
  match n with
  | 0 => Ok (positions, op)
  | S n =>
      '(positions, op) ← swap_once positions op;
      swap_loop n positions op
  end.

Definition _swap (positions : list nat) (op : random_op)
  : result (list nat * random_op) :=
  if bool_decide (length positions = 1) then Ok (positions, op)
  else swap_loop (Z.to_nat (swaps self)) positions op.

(** Whether the mask is the output of [tf.py_function], the last branch of
    the [if] chain.  Such a tensor has no static rank. *)
Definition masked_by_py_function : bool :=
  if truthy (skip_list self) then false
  else match skip_fn self, py_skip_fn self with
       | None, Some _ => true
       | _, _ => false
       end.

(** Tracing [_swap] on rows of [row_length] tokens, when the trace knows
    their length.  The size test is on a tensor, so both of its branches
    are traced, and the loop is unrolled [swaps] times: with one swap or
    more, [index[0]] and [index[1]] are checked against the known shape of
    [index]. *)
Definition trace__swap (row_length : option nat) : result () :=
  match row_length with
  | Some n =>
      if bool_decide (n < 2) && bool_decide (0 < swaps self)%Z
      then Raise (ValueError
             ("slice index " ++ pretty n ++ " of dimension 0 out of bounds."))
      else Ok ()
  | None => Ok ()
  end.

(** The rank check, the mask and the trace of [_swap] fail while [call] is
    traced, before anything is run.  [boolean_mask] needs the static rank
    of its mask, and leaves rows whose length the trace does not know. *)
Definition call (op : random_op) (inputs : Tensor) : result (Tensor * random_op) :=
  let row_length := static_row_length inputs in
  '(input_is_1d, inputs) ← normalize_rank inputs;
  let row_splits := row_splits inputs in
  let skip_masks := skip_masks (flat_values inputs) in
  let positions_flat := seq 0 (length (flat_values inputs)) in
  let positions := with_flat_values inputs positions_flat in
  '(positions, row_length) ←
    match skip_masks with
    | Some skip_masks =>
        if masked_by_py_function
        then Raise (ValueError "mask.shape.ndims must be known statically.")
        else Ok (boolean_mask positions
                   (with_flat_values inputs (negb <$> skip_masks)),
                 None)
    | None => Ok (positions, row_length)
    end;
  _ ← trace__swap row_length;
  '(shuffled, op) ← map_fn _swap positions op;
  values ← gather (flat_values inputs) (flat_values shuffled);
  swapped ← from_row_splits values row_splits;
  (* [if input_is_1d: inputs = tf.squeeze(swapped, axis=0)] rebinds
     [inputs], which is not read again. *)
  let inputs := if input_is_1d : bool then head swapped else None in
  Ok (Ragged swapped, op).
End call.

Definition get_config (self : t) : gmap string Value :=
  <["seed" := VInt (seed self)]>
    (<["swaps" := VInt (swaps self)]> (Layer_get_config (base self))).

(** [Layer.from_config]: the class is called with the entries of [config]
    as its keyword arguments. *)
Definition from_config (env : Env) (config : gmap string Value) : result t :=
  swaps ← match config !! "swaps" with
          | Some (VInt z) => Ok z
          | Some _ => Raise (TypeError "unexpected value for swaps")
          | None => Raise (TypeError
                      "__init__() missing 1 required positional argument: 'swaps'")
          end;
  skip_list ← kw_optional read_list "skip_list" (config !! "skip_list");
  skip_fn ← kw_optional read_skip_fn "skip_fn" (config !! "skip_fn");
  py_skip_fn ← kw_optional read_skip_fn "py_skip_fn" (config !! "py_skip_fn");
  seed ← kw_optional read_int "seed" (config !! "seed");
  name ← kw_optional read_str "name" (config !! "name");
  __init__ env
    {| a_swaps := swaps; a_skip_list := skip_list; a_skip_fn := skip_fn;
       a_py_skip_fn := py_skip_fn; a_seed := seed; a_name := name;
       a_kwargs :=
         foldr delete config
           ["swaps"; "skip_list"; "skip_fn"; "py_skip_fn"; "seed"; "name"] |}.

End RandomSwaps.

(** * RandomInsertion *)
Module RandomInsertion.

(** The arguments of [RandomInsertion.__init__].  The rate is a number, held
    as a rational. *)
Record Args := {
  a_rate : Q;
  a_max_insertions : option Z;
  a_insertion_list : option (list Token);
  a_insertion_fn : option (Token → Token);
  a_insertion_py_fn : option (Token → Token);
  a_skip_list : option (list Token);
  a_skip_fn : option (Token → bool);
  a_skip_py_fn : option (Token → bool);
  a_seed : option Z;
  a_name : option string;
  a_kwargs : gmap string Value;
}.

Record t := {
  base : Layer;
  rate : Q;
  max_insertions : option Z;
  insertion_list : option (list Token);
  insertion_fn : option (Token → Token);
  insertion_py_fn : option (Token → Token);
  skip_list : option (list Token);
  skip_fn : option (Token → bool);
  skip_py_fn : option (Token → bool);
  seed : Z;
  StaticHashTable : option (list Token);
}.

(** The constructor returns the layer together with its generator, which
    [call] advances.  The message of the rate error goes on with the rate
    that was received. *)
Definition __init__ (env : Env) (a : Args) : result (t * Generator) :=
  kwargs ← check_dtype (a_kwargs a);
  let base := Layer__init__ env "random_insertion" (a_name a) kwargs in
  let seed := default (randint env 1 1000000000) (a_seed a) in
  let _generator := from_seed seed in
  if from_option (λ m, bool_decide (m < 0)%Z) false (a_max_insertions a)
  then Raise (ValueError "Insertions must be non negative")
  else if bool_decide (1 < a_rate a)%Q || bool_decide (a_rate a < 0)%Q
  then Raise (ValueError "Rate must be between 0 and 1 (both inclusive).")
  else if bool_decide
            (count_None [bool_decide (is_Some (a_skip_list a));
                         bool_decide (is_Some (a_skip_fn a));
                         bool_decide (is_Some (a_skip_py_fn a))] < 2)
  then Raise (ValueError
         "Exactly one of skip_list, skip_fn, skip_py_fn must be provided.")
  else if bool_decide
            (count_None [bool_decide (is_Some (a_insertion_list a));
                         bool_decide (is_Some (a_insertion_fn a));
                         bool_decide (is_Some (a_insertion_py_fn a))] ≠ 2)
  then Raise (ValueError
         "Exactly one of insertion_list, insertion_fn, insertion_py_fn must be provided.")
  else
    StaticHashTable ← build_table (a_skip_list a);
    Ok ({| base := base;
           rate := a_rate a;
           max_insertions := a_max_insertions a;
           insertion_list := a_insertion_list a;
           insertion_fn := a_insertion_fn a;
           insertion_py_fn := a_insertion_py_fn a;
           skip_list := a_skip_list a;
           skip_fn := a_skip_fn a;
           skip_py_fn := a_skip_py_fn a;
           seed := seed;
           StaticHashTable := StaticHashTable |},
        _generator).

Section call.
Context `{RandomBackend}.
Variable self : t.

Definition _check_skip (token : Token) : bool :=
  if truthy (skip_list self)
  then bool_decide (token ∈ default [] (StaticHashTable self))
  else match skip_fn self with
       | Some fn => fn token
       | None =>
           match skip_py_fn self with
           | Some fn => fn token
           | None => false
           end
       end.

(** The token to insert next to [original_word]. *)
Definition pick_synonym (original_word : Token) (g : Generator)
  : result (Token * Generator) :=
  match insertion_fn self with
  | Some fn => Ok (fn original_word, g)
  | None =>
      match insertion_list self with
      | Some l =>
          let '(s, g) := make_seeds g in
          draw ← uniform_int (stateless_bits s 1) 1 (length l);
          synonym_index ← getitem draw 0;
          synonym ← getitem l synonym_index;
          Ok (synonym, g)
      | None =>
          match insertion_py_fn self with
          | Some fn => Ok (fn original_word, g)
          | None => Raise (TypeError "'NoneType' object is not callable")
          end
      end
  end.

(** One turn of the loop in [_insert]. *)
Definition insert_once (inputs : list Token) (g : Generator)
  : result (list Token * Generator) :=
  let '(s, g) := make_seeds g in
  index ← uniform_int (stateless_bits s (length inputs))
            (length inputs) (length inputs);
  insertion_prompt ← getitem index 0;
  insertion_location ← getitem index 1;
  original_word ← getitem inputs insertion_prompt;
  if _check_skip original_word then Ok (inputs, g)
  else
    '(synonym, g) ← pick_synonym original_word g;
    Ok ((take (insertion_location + 1) inputs ++ [synonym]
           ++ drop (insertion_location + 1) inputs)%list, g).

Fixpoint insert_loop (n : nat) (inputs : list Token) (g : Generator)
  : result (list Token * Generator) :=
  match n with
  | 0 => Ok (inputs, g)
  | S n =>
      '(inputs, g) ← insert_once inputs g;
      insert_loop n inputs g
  end.

Definition _insert (x : list Token * nat) (g : Generator)
  : result (list Token * Generator) :=
  let '(inputs, num_to_select) := x in
  insert_loop num_to_select inputs g.

(** How many tokens each row is to receive: one binomial draw for the
    whole batch, capped by [max_insertions]. *)
Definition num_to_select (inputs : list (list Token)) (g : Generator)
  : list nat * Generator :=
  let token_counts := length <$> inputs in
  let '(s, g) := make_seeds g in
  let num_to_select :=
    imap (λ i count,
            binomial_sample s (length token_counts) i count (rate self))
      token_counts in
  let num_to_select :=
    match max_insertions self with
    | Some m => (λ n, Z.to_nat (Z.min (Z.of_nat n) m)) <$> num_to_select
    | None => num_to_select
    end in
  (num_to_select, g).

(** [tf.squeeze(x, axis=0)]. *)
Definition squeeze (rows : list (list Token)) : result Tensor :=
  match rows with
  | [row] => Ok (Vector row)
  | _ => Raise (InvalidArgumentError "Can not squeeze dim[0], expected a dimension of 1")
  end.

(** Tracing [_insert] on a row of [row_length] tokens, when the trace knows
    its length.  The loop runs a tensor number of times, so it is traced as
    a [tf.while_loop], whose variable [inputs] has to keep its shape: on a
    row of known length [index[1]] is out of range, or the row that comes
    out of the loop body is not of the shape that went in. *)
Definition trace__insert (row_length : option nat) : result () :=
  match row_length with
  | Some n =>
      if bool_decide (n < 2)
      then Raise (ValueError
             ("slice index " ++ pretty n ++ " of dimension 0 out of bounds."))
      else Raise (ValueError
             ("'inputs' has shape (" ++ pretty n
                ++ ",) before the loop, but shape (None,) after one iteration."))
  | None => Ok ()
  end.

(** The rank check and the trace of [_insert] fail while [call] is traced,
    before anything is run. *)
Definition call (g : Generator) (inputs : Tensor) : result (Tensor * Generator) :=
  let row_length := static_row_length inputs in
  '(input_is_1d, inputs) ← normalize_rank inputs;
  _ ← trace__insert row_length;
  let '(num_to_select, g) := num_to_select inputs g in
  '(inserted, g) ← map_fn _insert (zip inputs num_to_select) g;
  if input_is_1d : bool
  then inserted ← squeeze inserted; Ok (inserted, g)
  else Ok (Ragged inserted, g).
End call.

Definition get_config (self : t) : gmap string Value :=
  <["seed" := VInt (seed self)]>
  (<["skip_py_fn" := export VSkipFn (skip_py_fn self)]>
  (<["skip_fn" := export VSkipFn (skip_fn self)]>
  (<["skip_list" := export VList (skip_list self)]>
  (<["insertion_py_fn" := export VInsertionFn (insertion_py_fn self)]>
  (<["insertion_fn" := export VInsertionFn (insertion_fn self)]>
  (<["insertion_list" := export VList (insertion_list self)]>
  (<["max_insertions" := export VInt (max_insertions self)]>
  (<["rate" := VFloat (rate self)]>
     (Layer_get_config (base self)))))))))).

(** [Layer.from_config]: the class is called with the entries of [config]
    as its keyword arguments. *)
Definition from_config (env : Env) (config : gmap string Value)
  : result (t * Generator) :=
  rate ← match config !! "rate" with
         | Some v =>
             match read_number v with
             | Some q => Ok q
             | None => Raise (TypeError "unexpected value for rate")
             end
         | None => Raise (TypeError
                     "__init__() missing 1 required positional argument: 'rate'")
         end;
  max_insertions ← kw_optional read_int "max_insertions" (config !! "max_insertions");
  insertion_list ← kw_optional read_list "insertion_list" (config !! "insertion_list");
  insertion_fn ← kw_optional read_insertion_fn "insertion_fn" (config !! "insertion_fn");
  insertion_py_fn ←
    kw_optional read_insertion_fn "insertion_py_fn" (config !! "insertion_py_fn");
  skip_list ← kw_optional read_list "skip_list" (config !! "skip_list");
  skip_fn ← kw_optional read_skip_fn "skip_fn" (config !! "skip_fn");
  skip_py_fn ← kw_optional read_skip_fn "skip_py_fn" (config !! "skip_py_fn");
  seed ← kw_optional read_int "seed" (config !! "seed");
  name ← kw_optional read_str "name" (config !! "name");
  __init__ env
    {| a_rate := rate; a_max_insertions := max_insertions;
       a_insertion_list := insertion_list; a_insertion_fn := insertion_fn;
       a_insertion_py_fn := insertion_py_fn; a_skip_list := skip_list;
       a_skip_fn := skip_fn; a_skip_py_fn := skip_py_fn; a_seed := seed;
       a_name := name;
       a_kwargs :=
         foldr delete config
           ["rate"; "max_insertions"; "insertion_list"; "insertion_fn";
            "insertion_py_fn"; "skip_list"; "skip_fn"; "skip_py_fn"; "seed";
            "name"] |}.

End RandomInsertion.

(** * Vocabulary of the properties *)

(** The positions [with_flat_values] gives the rows of a batch: row after
    row, consecutive ranges. *)
Fixpoint ranges {A} (start : nat) (rows : list (list A)) : list (list nat) :=
  match rows with
  | [] => []
  | r :: rs => seq start (length r) :: ranges (start + length r) rs
  end.

(** The rows [with_flat_values] cuts out of a list of flat values. *)
Fixpoint cut {A B} (rows : list (list A)) (values : list B) : list (list B) :=
  match rows with
  | [] => []
  | r :: rs => take (length r) values :: cut rs (drop (length r) values)
  end.

(** The positions [RandomSwaps.call] hands to [_swap]: all of them, or those
    the skip mask leaves. *)
Definition eligible_positions (self : RandomSwaps.t) (rows : list (list Token))
  : list (list nat) :=
  let positions := with_flat_values rows (seq 0 (length (flat_values rows))) in
  match RandomSwaps.skip_masks self (flat_values rows) with
  | Some skip_masks =>
      boolean_mask positions (with_flat_values rows (negb <$> skip_masks))
  | None => positions
  end.

(** No token of the batch is skip-protected: there is no skip mask, or it is
    false throughout. *)
Definition none_protected (self : RandomSwaps.t) (rows : list (list Token)) : Prop :=
  ∀ skip_masks, RandomSwaps.skip_masks self (flat_values rows) = Some skip_masks →
                Forall (λ b, b = false) skip_masks.

(** Whether a non-abandoned iteration of the insertion loop draws a second
    seed: it does when the token comes from [insertion_list]. *)
Definition draws_from_list (self : RandomInsertion.t) : bool :=
  match RandomInsertion.insertion_fn self, RandomInsertion.insertion_list self with
  | None, Some _ => true
  | _, _ => false
  end.

(** What the skip arguments of a constructor say about a token: it is in
    the list, or the function holds of it. *)
Definition marked (skip_list : option (list Token))
    (skip_fn skip_py_fn : option (Token → bool)) (token : Token) : bool :=
  from_option (λ l, bool_decide (token ∈ l)) false skip_list
  || from_option (λ fn, fn token) false skip_fn
  || from_option (λ fn, fn token) false skip_py_fn.

(** ** The two call patterns of a dataset pipeline *)
Section pipelines.
Context {S : Type}.
Variable call : S → Tensor → result (Tensor * S).


End pipelines.



(** Construct a layer and call it once, its [tf.random.uniform] op being in
    state [op]. *)
Definition swaps_run `{RandomBackend} (env : Env) (a : RandomSwaps.Args)
    (op : random_op) (inputs : Tensor) : result Tensor :=
  self ← RandomSwaps.__init__ env a;
  '(outputs, _) ← RandomSwaps.call self op inputs;
  Ok outputs.

(** Construct a layer and call it once on its fresh generator. *)
Definition insertion_run `{RandomBackend} (env : Env) (a : RandomInsertion.Args)
    (inputs : Tensor) : result Tensor :=
  '(self, g) ← RandomInsertion.__init__ env a;
  '(outputs, _) ← RandomInsertion.call self g inputs;
  Ok outputs.

(** ** The iterations of the insertion loop *)
Section insertion_iterations.
Context `{RandomBackend}.
Variable self : RandomInsertion.t.

(** The two indices an iteration draws into the current sequence. *)
Definition drawn_prompt (inputs : list Token) (g : Generator) : nat :=
  stateless_bits (make_seeds g).1 (length inputs) 0 `mod` length inputs.

Definition drawn_location (inputs : list Token) (g : Generator) : nat :=
  stateless_bits (make_seeds g).1 (length inputs) 1 `mod` length inputs.

(** An iteration is abandoned when the token at the drawn prompt index is
    skip-protected. *)
Definition abandoned (inputs : list Token) (g : Generator) : bool :=
  match inputs !! drawn_prompt inputs g with
  | Some original_word => RandomInsertion._check_skip self original_word
  | None => false
  end.

(** The number of iterations, out of [n], that are not abandoned. *)
Fixpoint non_abandoned (n : nat) (inputs : list Token) (g : Generator) : nat :=
  match n with
  | 0 => 0
  | S n =>
      match RandomInsertion.insert_once self inputs g with
      | Ok (inputs', g') =>
          (if abandoned inputs g then 0 else 1) + non_abandoned n inputs' g'
      | Raise _ => 0
      end
  end.

(** The configured insertion mechanism can deliver a token: a function, or
    a list that is not empty. *)
Definition can_insert : Prop :=
  is_Some (RandomInsertion.insertion_fn self)
  ∨ (RandomInsertion.insertion_fn self = None
     ∧ truthy (RandomInsertion.insertion_list self) = true)
  ∨ (RandomInsertion.insertion_fn self = None
     ∧ RandomInsertion.insertion_list self = None
     ∧ is_Some (RandomInsertion.insertion_py_fn self)).

(** What [num_to_select] allots a row: at most its length, and at most
    [max_insertions] when that is set. *)
Definition allotted (row : list Token) (n : nat) : Prop :=
  n ≤ length row
  ∧ ∀ m, RandomInsertion.max_insertions self = Some m → n ≤ Z.to_nat m.
End insertion_iterations.

(** ** Arguments of the constructors *)

(** How many of three optional arguments are supplied (are not [None]). *)
Definition num_supplied {A B C} (a : option A) (b : option B) (c : option C) : nat :=
  (if bool_decide (is_Some a) then 1 else 0)
  + (if bool_decide (is_Some b) then 1 else 0)
  + (if bool_decide (is_Some c) then 1 else 0).

(** What the constructors of the two layers require of their arguments,
    the dtype aside. *)
Definition swaps_args_valid (a : RandomSwaps.Args) : Prop :=
  (0 ≤ RandomSwaps.a_swaps a)%Z
  ∧ num_supplied (RandomSwaps.a_skip_list a) (RandomSwaps.a_skip_fn a)
      (RandomSwaps.a_py_skip_fn a) ≤ 1.

Definition insertion_args_valid (a : RandomInsertion.Args) : Prop :=
  (∀ m, RandomInsertion.a_max_insertions a = Some m → (0 ≤ m)%Z)
  ∧ ((0 <= RandomInsertion.a_rate a)%Q ∧ (RandomInsertion.a_rate a <= 1)%Q)
  ∧ num_supplied (RandomInsertion.a_skip_list a) (RandomInsertion.a_skip_fn a)
      (RandomInsertion.a_skip_py_fn a) ≤ 1
  ∧ num_supplied (RandomInsertion.a_insertion_list a)
      (RandomInsertion.a_insertion_fn a) (RandomInsertion.a_insertion_py_fn a) = 1.

(** The skip list is absent, empty or a list of strings: the lists a hash
    table can be built over. *)
Definition string_keys (skip_list : option (list Token)) : Prop :=
  forallb is_string (default [] skip_list) = true.


Definition accepted_dtype (d : DType) : Prop :=
  negb (is_integer d) && negb (bool_decide (d = tf_string)) = false.



(** ** Inputs and configurations of the docstrings *)

Definition hey_i_like : list Token := [TStr "Hey"; TStr "I"; TStr "like"].

Definition keras_and_tensorflow : list Token :=
  [TStr "Keras"; TStr "and"; TStr "Tensorflow"].

Definition swaps_args (swaps : Z) (skip_list : option (list Token))
  : RandomSwaps.Args :=
  {| RandomSwaps.a_swaps := swaps;
     RandomSwaps.a_skip_list := skip_list;
     RandomSwaps.a_skip_fn := None;
     RandomSwaps.a_py_skip_fn := None;
     RandomSwaps.a_seed := Some 42%Z;
     RandomSwaps.a_name := Some "random_swaps";
     RandomSwaps.a_kwargs := ∅ |}.

Definition swaps_unnamed : RandomSwaps.Args :=
  {| RandomSwaps.a_swaps := 3;
     RandomSwaps.a_skip_list := None;
     RandomSwaps.a_skip_fn := None;
     RandomSwaps.a_py_skip_fn := None;
     RandomSwaps.a_seed := Some 42%Z;
     RandomSwaps.a_name := None;
     RandomSwaps.a_kwargs := ∅ |}.

Definition insertion_args (rate : Q) (max_insertions : option Z)
    (insertion_list skip_list : option (list Token)) : RandomInsertion.Args :=
  {| RandomInsertion.a_rate := rate;
     RandomInsertion.a_max_insertions := max_insertions;
     RandomInsertion.a_insertion_list := insertion_list;
     RandomInsertion.a_insertion_fn := None;
     RandomInsertion.a_insertion_py_fn := None;
     RandomInsertion.a_skip_list := skip_list;
     RandomInsertion.a_skip_fn := None;
     RandomInsertion.a_skip_py_fn := None;
     RandomInsertion.a_seed := Some 42%Z;
     RandomInsertion.a_name := Some "random_insertion";
     RandomInsertion.a_kwargs := ∅ |}.

Definition short_word (token : Token) : bool :=
  match token with
  | TStr s => bool_decide (String.length s < 2)
  | TInt _ => false
  end.

Definition swaps_two_skips : RandomSwaps.Args :=
  {| RandomSwaps.a_swaps := 3;
     RandomSwaps.a_skip_list := Some [TStr "like"];
     RandomSwaps.a_skip_fn := None;
     RandomSwaps.a_py_skip_fn := Some short_word;
     RandomSwaps.a_seed := Some 42%Z;
     RandomSwaps.a_name := None;
     RandomSwaps.a_kwargs := ∅ |}.

Definition insertion_two_skips : RandomInsertion.Args :=
  {| RandomInsertion.a_rate := 2 # 5;
     RandomInsertion.a_max_insertions := Some 1%Z;
     RandomInsertion.a_insertion_list := Some [TStr "wind"];
     RandomInsertion.a_insertion_fn := None;
     RandomInsertion.a_insertion_py_fn := None;
     RandomInsertion.a_skip_list := Some [TStr "like"];
     RandomInsertion.a_skip_fn := Some short_word;
     RandomInsertion.a_skip_py_fn := None;
     RandomInsertion.a_seed := Some 42%Z;
     RandomInsertion.a_name := None;
     RandomInsertion.a_kwargs := ∅ |}.

Definition test_env : Env :=
  {| entropy := 7; unique_object_name := λ class_name, class_name |}.

Definition other_env : Env :=
  {| entropy := 123456789; unique_object_name := λ class_name, class_name ++ "_1" |}.

(** The layers the constructors build from the configurations above. *)
Definition swaps_layer (swaps : Z) (skip_list : option (list Token))
  : RandomSwaps.t :=
  {| RandomSwaps.base :=
       {| name := "random_swaps"; trainable := VBool true;
          dtype := VDType tf_int32 |};
     RandomSwaps.swaps := swaps;
     RandomSwaps.seed := 42;
     RandomSwaps._generator := from_seed 42;
     RandomSwaps.skip_list := skip_list;
     RandomSwaps.skip_fn := None;
     RandomSwaps.py_skip_fn := None;
     RandomSwaps.StaticHashTable := if truthy skip_list then skip_list else None |}.

Definition insertion_layer (rate : Q) (max_insertions : option Z)
    (insertion_list skip_list : option (list Token)) : RandomInsertion.t :=
  {| RandomInsertion.base :=
       {| name := "random_insertion"; trainable := VBool true;
          dtype := VDType tf_int32 |};
     RandomInsertion.rate := rate;
     RandomInsertion.max_insertions := max_insertions;
     RandomInsertion.insertion_list := insertion_list;
     RandomInsertion.insertion_fn := None;
     RandomInsertion.insertion_py_fn := None;
     RandomInsertion.skip_list := skip_list;
     RandomInsertion.skip_fn := None;
     RandomInsertion.skip_py_fn := None;
     RandomInsertion.seed := 42;
     RandomInsertion.StaticHashTable :=
       if truthy skip_list then skip_list else None |}.

(** * A concrete backend

    A small deterministic stand-in for TensorFlow's generators, used to run
    the layers on concrete inputs: raw bits count upwards from the seed, and
    a binomial sample is the rounded-down mean. *)
Definition counting_bits (s : Z * nat) (i : nat) : nat :=
  Z.to_nat (Z.abs s.1) + s.2 + i.

Definition mean_binomial (s : Z * nat) (shape i count : nat) (probs : Q) : nat :=
  count `min` Z.to_nat (Qfloor (probs * inject_Z (Z.of_nat count))).

Lemma mean_binomial_le s shape i count probs :
  mean_binomial s shape i count probs ≤ count.
Proof. unfold mean_binomial. lia. Qed.

Lemma mean_binomial_certain s shape i count :
  mean_binomial s shape i count 1%Q = count.
Proof.
  unfold mean_binomial, Qfloor, Qmult, inject_Z. simpl.
  rewrite Z.div_1_r.
  destruct (Z.of_nat count) eqn:E; simpl; lia.
Qed.

#[global] Instance counting_backend : RandomBackend := {|
  stateless_bits s shape i := counting_bits s i;
  random_op := nat;
  random_op_bits seed runs shape i := counting_bits (seed, runs) i;
  random_op_advance runs shape := S runs;
  binomial_sample := mean_binomial;
  binomial_sample_le := mean_binomial_le;
  binomial_sample_certain := mean_binomial_certain;
|}.

(** * Properties *)

(** ** The result monad *)

Lemma bind_Ok {A B} (m : result A) (f : A → result B) (b : B) :
  m ≫= f = Ok b → ∃ a, m = Ok a ∧ f a = Ok b.
Proof. destruct m as [a|e]; [eauto | discriminate]. Qed.


Lemma getitem_Ok {A} (l : list A) (i : nat) (a : A) :
  getitem l i = Ok a ↔ l !! i = Some a.
Proof. unfold getitem. destruct (l !! i); split; congruence. Qed.

Lemma getitem_lt {A} (l : list A) (i : nat) :
  i < length l → ∃ a, getitem l i = Ok a ∧ l !! i = Some a.
Proof.
  intros Hi. destruct (lookup_lt_is_Some_2 l i Hi) as [a Ha].
  exists a. split; [by apply getitem_Ok | done].
Qed.

Lemma uniform_int_Ok bits shape maxval :
  0 < shape → 0 < maxval →
  uniform_int bits shape maxval = Ok ((λ i, bits i `mod` maxval) <$> seq 0 shape).
Proof.
  intros Hs Hm. unfold uniform_int.
  rewrite !bool_decide_eq_false_2 by lia. done.
Qed.

Lemma uniform_int_lookup bits shape maxval i :
  i < shape → 0 < maxval →
  ∃ index, uniform_int bits shape maxval = Ok index
           ∧ getitem index i = Ok (bits i `mod` maxval)
           ∧ bits i `mod` maxval < maxval.
Proof.
  intros Hi Hm. eexists. split; [apply uniform_int_Ok; lia|]. split.
  - apply getitem_Ok. rewrite list_lookup_fmap, lookup_seq_lt by done. done.
  - apply Nat.mod_upper_bound. lia.
Qed.

(** ** Exchanging two entries of a list *)

Lemma insert_Permutation_head {A} (l : list A) (j : nat) (x y : A) :
  l !! j = Some y → y :: <[j := x]> l ≡ₚ x :: l.
Proof.
  revert j. induction l as [|a l IH]; intros [|j] Hj; simplify_eq/=.
  - apply perm_swap.
  - rewrite perm_swap. rewrite (IH j Hj). apply perm_swap.
Qed.

Lemma exchange_Permutation {A} (l : list A) (i j : nat) (x y : A) :
  l !! i = Some x → l !! j = Some y →
  <[j := x]> (<[i := y]> l) ≡ₚ l.
Proof.
  revert i j. induction l as [|a l IH]; intros [|i] [|j] Hi Hj; simplify_eq/=.
  - done.
  - by apply insert_Permutation_head.
  - by apply insert_Permutation_head.
  - f_equiv. by apply IH.
Qed.

(** ** RandomSwaps: the swap loop *)
Section swaps_loop.
Context `{RandomBackend}.
Variable self : RandomSwaps.t.

Lemma swap_once_Permutation (positions : list nat) (op : random_op) :
  2 ≤ length positions →
  ∃ positions',
    RandomSwaps.swap_once self positions op
    = Ok (positions', random_op_advance op (length positions))
    ∧ positions' ≡ₚ positions.
Proof.
  intros Hlen. unfold RandomSwaps.swap_once.
  set (bits := random_op_bits (RandomSwaps.seed self) op (length positions)).
  rewrite uniform_int_Ok by lia. simpl.
  set (index := (λ i, bits i `mod` length positions) <$> seq 0 (length positions)).
  assert (getitem index 0 = Ok (bits 0 `mod` length positions)) as ->.
  { apply getitem_Ok. unfold index.
    rewrite list_lookup_fmap, lookup_seq_lt by lia. done. }
  assert (getitem index 1 = Ok (bits 1 `mod` length positions)) as ->.
  { apply getitem_Ok. unfold index.
    rewrite list_lookup_fmap, lookup_seq_lt by lia. done. }
  simpl.
  destruct (getitem_lt positions (bits 1 `mod` length positions))
    as (at2 & -> & Hat2); [apply Nat.mod_upper_bound; lia|].
  destruct (getitem_lt positions (bits 0 `mod` length positions))
    as (at1 & -> & Hat1); [apply Nat.mod_upper_bound; lia|].
  simpl. eexists. split; [done|]. by apply exchange_Permutation.
Qed.

Lemma swap_once_empty (op : random_op) :
  RandomSwaps.swap_once self [] op
  = Raise (InvalidArgumentError "slice index out of bounds").
Proof. reflexivity. Qed.

Lemma swap_loop_Permutation (n : nat) (positions : list nat) (op : random_op) :
  2 ≤ length positions →
  ∃ positions' op', RandomSwaps.swap_loop self n positions op
                    = Ok (positions', op')
                    ∧ positions' ≡ₚ positions.
Proof.
  revert positions op. induction n as [|n IH]; intros positions op Hlen.
  - by exists positions, op.
  - destruct (swap_once_Permutation positions op Hlen) as (p1 & Hp1 & Hperm1).
    destruct (IH p1 (random_op_advance op (length positions)))
      as (p2 & op2 & Hp2 & Hperm2).
    { by rewrite (Permutation_length Hperm1). }
    exists p2, op2. split; [|by etrans].
    simpl. rewrite Hp1. simpl. by rewrite Hp2.
Qed.

(** [_swap] returns a rearrangement of the positions it is given, unless
    it is asked to swap within an empty row. *)
Lemma _swap_Permutation (positions : list nat) (op : random_op) :
  positions ≠ [] ∨ RandomSwaps.swaps self = 0%Z →
  ∃ positions' op', RandomSwaps._swap self positions op = Ok (positions', op')
                      ∧ positions' ≡ₚ positions.
Proof.
  intros Hne. unfold RandomSwaps._swap. case_bool_decide as Hone.
  - by exists positions, op.
  - destruct positions as [|a [|b positions]]; simpl in *; try lia.
    + destruct Hne as [?| ->]; [done|]. by exists [], op.
    + destruct (swap_loop_Permutation (Z.to_nat (RandomSwaps.swaps self))
                  (a :: b :: positions) op) as (p & op' & Hp & Hperm);
        [simpl; lia|].
      eauto.
Qed.

Lemma _swap_empty (op : random_op) :
  (0 < RandomSwaps.swaps self)%Z →
  RandomSwaps._swap self [] op
  = Raise (InvalidArgumentError "slice index out of bounds").
Proof.
  intros Hpos. unfold RandomSwaps._swap. simpl.
  destruct (Z.to_nat (RandomSwaps.swaps self)) as [|n] eqn:E; [lia|].
  reflexivity.
Qed.

(** A row with a single eligible position is handed back as it is. *)
Lemma _swap_single (position : nat) (op : random_op) :
  RandomSwaps._swap self [position] op = Ok ([position], op).
Proof. reflexivity. Qed.
End swaps_loop.

(** ** RandomSwaps on the inputs of its docstring *)

(** C1 (the skip half fails on the code).  [RandomSwaps(swaps=3,
    skip_list=["I"], seed=42)] called on [[["Hey", "I", "like"]]]: the
    positions of the two eligible tokens are shuffled and gathered, and
    [from_row_splits] is then handed two values for row splits that end at
    three, whatever the random draws are.  The call raises instead of
    returning the sequence with "I" kept in place. *)
Theorem swaps_skip_protected_token_raises `{RandomBackend} (env : Env) (op : random_op) :
  swaps_run env (swaps_args 3 (Some [TStr "I"])) op (Ragged [hey_i_like])
  = Raise (InvalidArgumentError
      "Arguments to _from_row_partition do not form a valid RaggedTensor").
Proof.
  unfold swaps_run.
  destruct (RandomSwaps.__init__ env (swaps_args 3 (Some [TStr "I"])))
    as [self|e] eqn:Hinit; [|by vm_compute in Hinit].
  vm_compute in Hinit. injection Hinit as <-.
  unfold RandomSwaps.call. simpl.
  change (mask_row [0; 1; 2] [true; false; true]) with [0; 2].
  match goal with
  | |- context [RandomSwaps._swap ?l [0; 2] op] =>
      destruct (_swap_Permutation l [0; 2] op) as (p & op' & -> & Hperm);
        [by left|]
  end.
  symmetry in Hperm. apply Permutation_length_2_inv in Hperm as [-> | ->];
    reflexivity.
Qed.

(** ** Ragged bookkeeping *)

Lemma length_flat_values_cons {A} (r : list A) (rs : list (list A)) :
  length (flat_values (r :: rs)) = length r + length (flat_values rs).
Proof. unfold flat_values. simpl. by rewrite length_app. Qed.

Lemma rows_of_splits_seq {A} (rows : list (list A)) (start n : nat) :
  start + length (flat_values rows) ≤ n →
  rows_of_splits (seq 0 n) start (splits_from start rows) = ranges start rows.
Proof.
  revert start. induction rows as [|r rs IH]; intros start Hn; [done|].
  rewrite length_flat_values_cons in Hn. simpl. f_equal.
  - rewrite drop_seq, take_seq. simpl. f_equal. lia.
  - apply IH. lia.
Qed.

Lemma rows_of_splits_concat {A B} (rows : list (list A)) (parts : list (list B))
    (values : list B) (start : nat) :
  Forall2 (λ p r, length p = length r) parts rows →
  drop start values = concat parts →
  rows_of_splits values start (splits_from start rows) = parts.
Proof.
  intros Hlen. revert start.
  induction Hlen as [|p r parts rows Hpr Hlen IH]; intros start Hdrop; [done|].
  simpl in *. f_equal.
  - rewrite Hdrop. replace (start + length r - start) with (length p) by lia.
    by rewrite take_app_length.
  - apply IH. rewrite <-drop_drop, Hdrop, <-Hpr.
    by rewrite drop_app_length.
Qed.

Lemma nondecreasing_splits_from {A} (rows : list (list A)) (start : nat) :
  nondecreasing start (splits_from start rows) = true.
Proof.
  revert start. induction rows as [|r rs IH]; intros start; [done|].
  simpl. rewrite IH, bool_decide_eq_true_2 by lia. done.
Qed.

Lemma last_splits_from {A} (rows : list (list A)) (start : nat) :
  last (start :: splits_from start rows) = Some (start + length (flat_values rows)).
Proof.
  revert start. induction rows as [|r rs IH]; intros start.
  - simpl. f_equal. lia.
  - rewrite length_flat_values_cons. simpl splits_from.
    rewrite last_cons_cons, IH. f_equal. lia.
Qed.

Lemma from_row_splits_concat {A B} (rows : list (list A)) (parts : list (list B)) :
  Forall2 (λ p r, length p = length r) parts rows →
  from_row_splits (concat parts) (row_splits rows) = Ok parts.
Proof.
  intros Hlen. unfold from_row_splits, row_splits.
  rewrite nondecreasing_splits_from, last_splits_from. simpl.
  assert (length (concat parts) = length (flat_values rows)) as ->.
  { unfold flat_values. induction Hlen; simpl; [done|].
    rewrite !length_app. congruence. }
  rewrite bool_decide_eq_true_2 by done.
  f_equal. by apply rows_of_splits_concat.
Qed.

(** Reading a list at consecutive indices cuts a slice out of it. *)
Lemma lookup_seq_slice {A} (d : A) (l : list A) (start len : nat) :
  len ≤ length l - start →
  (λ i, default d (l !! i)) <$> seq start len = take len (drop start l).
Proof.
  revert start l. induction len as [|len IH]; intros start l Hl; [done|].
  simpl. destruct (drop start l) as [|a k] eqn:Hdrop.
  - apply (f_equal length) in Hdrop. rewrite length_drop in Hdrop.
    simpl in Hdrop. lia.
  - simpl. f_equal.
    + assert (l !! start = Some a) as ->; [|done].
      rewrite <-(Nat.add_0_r start), <-lookup_drop, Hdrop. done.
    + rewrite IH by lia. f_equal.
      replace (S start) with (start + 1) by lia.
      rewrite <-drop_drop, Hdrop. done.
Qed.

Lemma gather_in_range {A} (d : A) (params : list A) (indices : list nat) :
  Forall (λ i, i < length params) indices →
  gather params indices = Ok ((λ i, default d (params !! i)) <$> indices).
Proof.
  induction 1 as [|i indices Hi _ IH]; [done|].
  unfold gather in *. simpl.
  destruct (getitem_lt params i Hi) as (a & -> & ->). simpl.
  rewrite IH. done.
Qed.

Lemma ranges_lt {A} (rows : list (list A)) (start : nat) :
  Forall (Forall (λ i, i < start + length (flat_values rows))) (ranges start rows).
Proof.
  revert start. induction rows as [|r rs IH]; intros start; [constructor|].
  rewrite length_flat_values_cons. simpl. constructor.
  - apply Forall_forall. intros i [_ Hi]%elem_of_seq. lia.
  - replace (start + (length r + length (flat_values rs)))
      with (start + length r + length (flat_values rs)) by lia.
    apply IH.
Qed.

Lemma ranges_slices {A} (d : A) (rows : list (list A)) (values : list A) (start : nat) :
  drop start values = concat rows →
  Forall2 (λ range row, (λ i, default d (values !! i)) <$> range = row)
    (ranges start rows) rows.
Proof.
  revert start. induction rows as [|r rs IH]; intros start Hdrop; [constructor|].
  simpl in *. constructor.
  - rewrite lookup_seq_slice.
    + by rewrite Hdrop, take_app_length.
    + apply (f_equal length) in Hdrop.
      rewrite length_drop, length_app in Hdrop. lia.
  - apply IH. by rewrite <-drop_drop, Hdrop, drop_app_length.
Qed.

Lemma shuffled_slices {A} (read : nat → A) (shuffled ranges : list (list nat))
    (rows : list (list A)) :
  Forall2 (≡ₚ) shuffled ranges →
  Forall2 (λ range row, read <$> range = row) ranges rows →
  Forall2 (λ p r, length p = length r) (fmap (M := list) read <$> shuffled) rows
  ∧ Forall2 (≡ₚ) (fmap (M := list) read <$> shuffled) rows.
Proof.
  intros Hsh. revert rows.
  induction Hsh as [|p rg ps rgs Hp _ IH]; intros rows Hslices;
    inversion Hslices as [|? r ? rs Hr Hrs]; subst; simpl.
  - split; constructor.
  - destruct (IH rs Hrs) as [Hlen Hperm]. split; constructor; try done.
    + by rewrite Hp.
    + by rewrite Hp.
Qed.

Lemma slices_eq {A} (read : nat → A) (ranges : list (list nat))
    (rows : list (list A)) :
  Forall2 (λ range row, read <$> range = row) ranges rows →
  fmap (M := list) read <$> ranges = rows.
Proof.
  induction 1 as [|rg r rgs rs Hr _ IH]; [done|].
  rewrite fmap_cons. by f_equal.
Qed.

(** ** RandomSwaps without skip-protected tokens *)
#[local] Arguments from_row_splits : simpl never.
#[local] Arguments gather : simpl never.

Section swaps_call.
Context `{RandomBackend}.
Variable self : RandomSwaps.t.

Lemma map_fn__swap_ranges (rows : list (list Token)) (start : nat) (op : random_op) :
  Forall (λ row, row ≠ []) rows ∨ RandomSwaps.swaps self = 0%Z →
  ∃ shuffled op',
    map_fn (RandomSwaps._swap self) (ranges start rows) op = Ok (shuffled, op')
    ∧ Forall2 (≡ₚ) shuffled (ranges start rows).
Proof.
  intros Hrows. revert start op.
  induction rows as [|r rs IH]; intros start op.
  - exists [], op. by split; [|constructor].
  - assert (Forall (λ row, row ≠ []) rs ∨ RandomSwaps.swaps self = 0%Z) as Hrs.
    { destruct Hrows as [Hne|]; [left; by inversion Hne | by right]. }
    simpl.
    destruct (_swap_Permutation self (seq start (length r)) op)
      as (p & op1 & -> & Hp).
    { destruct Hrows as [Hne|]; [left | by right].
      inversion Hne; subst. by destruct r. }
    simpl. destruct (IH Hrs (start + length r) op1) as (ps & op2 & -> & Hps).
    simpl. exists (p :: ps), op2. split; [done|]. by constructor.
Qed.

(** What a rank-2 call returns once the positions are shuffled: the tokens
    read at the shuffled positions, cut into the rows of the input. *)
Lemma swaps_call_shuffled (rows : list (list Token)) (op op' : random_op)
    (shuffled : list (list nat)) :
  RandomSwaps.skip_masks self (flat_values rows) = None →
  map_fn (RandomSwaps._swap self) (ranges 0 rows) op = Ok (shuffled, op') →
  Forall2 (≡ₚ) shuffled (ranges 0 rows) →
  RandomSwaps.call self op (Ragged rows)
  = Ok (Ragged (fmap (M := list)
                  (λ i, default (TInt 0) (flat_values rows !! i)) <$> shuffled),
        op').
Proof.
  intros Hmask Hmap Hsh. unfold RandomSwaps.call. simpl. rewrite Hmask. simpl.
  unfold with_flat_values. rewrite rows_of_splits_seq by done.
  rewrite Hmap. simpl.
  set (read := λ i, default (TInt 0) (flat_values rows !! i)).
  rewrite (gather_in_range (TInt 0)).
  2:{ change (flat_values shuffled) with (concat shuffled). apply Forall_concat.
      pose proof (ranges_lt rows 0) as Hlt. simpl in Hlt.
      clear -Hsh Hlt. induction Hsh as [|p rg ps rgs Hp _ IH]; [constructor|].
      inversion Hlt; subst. constructor; [by rewrite Hp | by apply IH]. }
  simpl. fold read. change (flat_values shuffled) with (concat shuffled).
  assert (read <$> concat shuffled = concat (fmap (M := list) read <$> shuffled))
    as ->.
  { clear. induction shuffled as [|p ps IH]; [done|]. simpl.
    by rewrite fmap_app, IH. }
  pose proof (ranges_slices (TInt 0) rows (flat_values rows) 0 eq_refl) as Hslices.
  fold read in Hslices.
  destruct (shuffled_slices read shuffled (ranges 0 rows) rows Hsh Hslices)
    as [Hlen _].
  by rewrite from_row_splits_concat.
Qed.

(** With no token skip-protected and no empty row to swap in, a rank-2
    call returns, row by row, a rearrangement of its input. *)
Lemma swaps_call_Permutation (rows : list (list Token)) (op : random_op) :
  RandomSwaps.skip_masks self (flat_values rows) = None →
  Forall (λ row, row ≠ []) rows ∨ RandomSwaps.swaps self = 0%Z →
  ∃ swapped op',
    RandomSwaps.call self op (Ragged rows) = Ok (Ragged swapped, op')
    ∧ Forall2 (≡ₚ) swapped rows.
Proof.
  intros Hmask Hrows.
  destruct (map_fn__swap_ranges rows 0 op Hrows) as (sh & op' & Hmap & Hsh).
  eexists _, op'. split; [by apply swaps_call_shuffled|].
  pose proof (ranges_slices (TInt 0) rows (flat_values rows) 0 eq_refl) as Hslices.
  by destruct (shuffled_slices _ sh (ranges 0 rows) rows Hsh Hslices).
Qed.

Lemma map_fn__swap_zero (positions : list (list nat)) (op : random_op) :
  RandomSwaps.swaps self = 0%Z →
  map_fn (RandomSwaps._swap self) positions op = Ok (positions, op).
Proof.
  intros Hzero. induction positions as [|p ps IH]; [done|]. simpl.
  assert (RandomSwaps._swap self p op = Ok (p, op)) as ->.
  { unfold RandomSwaps._swap. rewrite Hzero. by case_bool_decide. }
  simpl. by rewrite IH.
Qed.

(** With [swaps = 0] and no token skip-protected, a rank-2 call hands every
    row back as it is and draws nothing. *)
Lemma swaps_zero_identity (rows : list (list Token)) (op : random_op) :
  RandomSwaps.skip_masks self (flat_values rows) = None →
  RandomSwaps.swaps self = 0%Z →
  RandomSwaps.call self op (Ragged rows) = Ok (Ragged rows, op).
Proof.
  intros Hmask Hzero.
  rewrite (swaps_call_shuffled rows op op (ranges 0 rows)); try done.
  - f_equal. f_equal. f_equal. apply slices_eq.
    by apply (ranges_slices (TInt 0) rows (flat_values rows) 0).
  - by apply map_fn__swap_zero.
Qed.
End swaps_call.

Lemma length_rows_of_splits {B} (values : list B) (start : nat) (ends : list nat) :
  length (rows_of_splits values start ends) = length ends.
Proof. revert start. induction ends as [|e es IH]; intros; simpl; auto. Qed.

Lemma length_splits_from {A} (rows : list (list A)) (start : nat) :
  length (splits_from start rows) = length rows.
Proof. revert start. induction rows as [|r rs IH]; intros; simpl; auto. Qed.

Lemma from_row_splits_length {A B} (rows : list (list A)) (values : list B)
    (parts : list (list B)) :
  from_row_splits values (row_splits rows) = Ok parts → length parts = length rows.
Proof.
  unfold from_row_splits, row_splits. destruct (_ && _); [|discriminate].
  intros [= <-]. by rewrite length_rows_of_splits, length_splits_from.
Qed.

(** ** RandomSwaps: the shape of a call *)

(** A call on a ragged batch: the mask of a [py_skip_fn] stops the trace,
    otherwise the eligible positions are shuffled row by row, the tokens
    gathered and cut at the row splits of the input. *)
Lemma swaps_call_Ragged `{RandomBackend} (self : RandomSwaps.t)
    (rows : list (list Token)) (op : random_op) :
  RandomSwaps.call self op (Ragged rows)
  = if RandomSwaps.masked_by_py_function self
    then Raise (ValueError "mask.shape.ndims must be known statically.")
    else
      '(shuffled, op) ← map_fn (RandomSwaps._swap self)
                          (eligible_positions self rows) op;
      values ← gather (flat_values rows) (flat_values shuffled);
      swapped ← from_row_splits values (row_splits rows);
      Ok (Ragged swapped, op).
Proof.
  unfold RandomSwaps.call, eligible_positions, RandomSwaps.masked_by_py_function,
    RandomSwaps.skip_masks. simpl.
  destruct (truthy (RandomSwaps.skip_list self)); [reflexivity|].
  destruct (RandomSwaps.skip_fn self); [reflexivity|].
  destruct (RandomSwaps.py_skip_fn self); reflexivity.
Qed.

(** A rank-1 input is given a leading axis and from there on handled as the
    batch that holds it alone. *)
Lemma swaps_call_Vector `{RandomBackend} (self : RandomSwaps.t) (op : random_op)
    (l : list Token) :
  RandomSwaps.call self op (Vector l) = RandomSwaps.call self op (Ragged [l]).
Proof. reflexivity. Qed.

(** A dense input of known shape is handled as the ragged batch of its
    rows, once the trace of [_swap] has accepted the length of the rows;
    behind a mask the trace does not know it. *)
Lemma swaps_call_static `{RandomBackend} (self : RandomSwaps.t) (op : random_op)
    (inputs : Tensor) (n : nat) :
  static_row_length inputs = Some n →
  RandomSwaps.call self op inputs
  = match RandomSwaps.skip_masks self (flat_values (examples inputs)) with
    | Some _ => RandomSwaps.call self op (Ragged (examples inputs))
    | None => _ ← RandomSwaps.trace__swap self (Some n);
              RandomSwaps.call self op (Ragged (examples inputs))
    end.
Proof.
  intros Hn. destruct inputs as [| | | |l|m rows]; try discriminate;
    injection Hn as <-; unfold RandomSwaps.call; simpl;
    destruct (RandomSwaps.skip_masks self _); try reflexivity;
    simpl; by destruct (RandomSwaps.trace__swap self _) as [[]|].
Qed.

(** Every call that returns has gone the way of the ragged batch of its
    sequences. *)
Lemma swaps_call_Ok `{RandomBackend} (self : RandomSwaps.t) (op op' : random_op)
    (inputs outputs : Tensor) :
  RandomSwaps.call self op inputs = Ok (outputs, op') →
  RandomSwaps.call self op (Ragged (examples inputs)) = Ok (outputs, op').
Proof.
  destruct (static_row_length inputs) as [n|] eqn:Hn.
  - rewrite (swaps_call_static self op inputs n Hn).
    destruct (RandomSwaps.skip_masks self _); [done|].
    by destruct (RandomSwaps.trace__swap self _) as [[]|].
  - destruct inputs; try discriminate; done.
Qed.

(** Whatever the rank of the input, what RandomSwaps returns is rank 2, with
    one row for each input sequence. *)
Lemma swaps_call_rank `{RandomBackend} (self : RandomSwaps.t) (op op' : random_op)
    (inputs outputs : Tensor) :
  RandomSwaps.call self op inputs = Ok (outputs, op') →
  rank outputs = 2 ∧ length (examples outputs) = length (examples inputs).
Proof.
  intros Hcall. apply swaps_call_Ok in Hcall.
  rewrite swaps_call_Ragged in Hcall.
  destruct (RandomSwaps.masked_by_py_function self); [discriminate|].
  apply bind_Ok in Hcall as ([shuffled op1] & _ & Hcall).
  apply bind_Ok in Hcall as (values & _ & Hcall).
  apply bind_Ok in Hcall as (swapped & Hsplit & Hcall).
  injection Hcall as <- <-. split; [done|].
  by apply from_row_splits_length in Hsplit.
Qed.

(** C2 (fails for RandomSwaps).  [RandomSwaps(swaps=3, seed=42)] called on
    the rank-1 input [["Hey", "I", "like"]] returns a rank-2 tensor with one
    row, a rearrangement of the input: the squeezed tensor is bound to
    [inputs] and [swapped] is returned unsqueezed. *)
Theorem swaps_rank_1_input_rank_2_output `{RandomBackend} (env : Env) (op : random_op) :
  ∃ row, swaps_run env (swaps_args 3 None) op (Vector hey_i_like)
         = Ok (Ragged [row])
         ∧ row ≡ₚ hey_i_like.
Proof.
  unfold swaps_run.
  destruct (RandomSwaps.__init__ env (swaps_args 3 None)) as [self|e] eqn:Hinit;
    [|by vm_compute in Hinit].
  vm_compute in Hinit. injection Hinit as <-.
  cbv beta iota delta [mbind result_bind].
  match goal with
  | |- context [RandomSwaps.call ?l op _] =>
      destruct (swaps_call_Permutation l [hey_i_like] op)
        as (swapped & op' & Hcall & Hperm);
        [reflexivity | left; by constructor |]
  end.
  rewrite swaps_call_Vector, Hcall.
  inversion Hperm as [|row ? rest ? Hrow Hrest]; subst.
  inversion Hrest; subst. by exists row.
Qed.

(** C7 (fails on the code).  [RandomSwaps(swaps=1, seed=42)] called on the
    batch [[[], ["Hey", "I", "like"]]]: the first row has no eligible index,
    [_swap] only returns early for exactly one, draws an empty index tensor
    and reads its entry 0, which is out of range. *)
Theorem swaps_empty_row_out_of_range `{RandomBackend} (env : Env) (op : random_op) :
  swaps_run env (swaps_args 1 None) op (Ragged [[]; hey_i_like])
  = Raise (InvalidArgumentError "slice index out of bounds").
Proof. reflexivity. Qed.

(** C8 (fails for RandomSwaps).  The configuration exported by
    [RandomSwaps(swaps=3, skip_list=["like"], seed=42)] has no [skip_list]
    entry, and the layer rebuilt from it protects nothing. *)
Theorem swaps_config_drops_skip_list (env env' : Env) :
  (self ← RandomSwaps.__init__ env (swaps_args 3 (Some [TStr "like"]));
   let config := RandomSwaps.get_config self in
   restored ← RandomSwaps.from_config env' config;
   Ok (config !! "skip_list", RandomSwaps.skip_list self,
       RandomSwaps.skip_list restored))
  = Ok (None, Some [TStr "like"], None).
Proof. reflexivity. Qed.

(** ** RandomInsertion: the insertion loop *)
Section insertion_loop.
Context `{RandomBackend}.
Variable self : RandomInsertion.t.

Lemma insert_once_short (inputs : list Token) (g : Generator) :
  length inputs < 2 →
  RandomInsertion.insert_once self inputs g
  = Raise (InvalidArgumentError "slice index out of bounds").
Proof.
  intros Hlen. destruct inputs as [|a [|b inputs]]; simpl in Hlen; try lia;
    reflexivity.
Qed.

Lemma insert_once_unfold (inputs : list Token) (g : Generator) :
  2 ≤ length inputs →
  ∃ original_word,
    inputs !! drawn_prompt inputs g = Some original_word
    ∧ RandomInsertion.insert_once self inputs g
      = if RandomInsertion._check_skip self original_word
        then Ok (inputs, (make_seeds g).2)
        else '(synonym, g') ← RandomInsertion.pick_synonym self original_word
                                (make_seeds g).2;
             Ok ((take (drawn_location inputs g + 1) inputs ++ [synonym]
                    ++ drop (drawn_location inputs g + 1) inputs)%list, g').
Proof.
  intros Hlen. unfold RandomInsertion.insert_once, drawn_prompt, drawn_location.
  simpl. set (bits := stateless_bits (key g, counter g) (length inputs)).
  rewrite uniform_int_Ok by lia. simpl.
  set (index := (λ i, bits i `mod` length inputs) <$> seq 0 (length inputs)).
  assert (getitem index 0 = Ok (bits 0 `mod` length inputs)) as ->.
  { apply getitem_Ok. unfold index.
    rewrite list_lookup_fmap, lookup_seq_lt by lia. done. }
  assert (getitem index 1 = Ok (bits 1 `mod` length inputs)) as ->.
  { apply getitem_Ok. unfold index.
    rewrite list_lookup_fmap, lookup_seq_lt by lia. done. }
  simpl.
  destruct (getitem_lt inputs (bits 0 `mod` length inputs))
    as (original_word & -> & Hword); [apply Nat.mod_upper_bound; lia|].
  exists original_word. split; [done|]. reflexivity.
Qed.

(** An abandoned iteration has used up its seed and left the sequence as
    it was. *)
Lemma insert_once_abandoned (inputs : list Token) (g : Generator) :
  2 ≤ length inputs → abandoned self inputs g = true →
  RandomInsertion.insert_once self inputs g
  = Ok (inputs, {| key := key g; counter := S (counter g) |}).
Proof.
  intros Hlen Hskip.
  destruct (insert_once_unfold inputs g Hlen) as (w & Hw & ->).
  unfold abandoned in Hskip. rewrite Hw in Hskip. by rewrite Hskip.
Qed.

Lemma insert_once_length (inputs inputs' : list Token) (g g' : Generator) :
  RandomInsertion.insert_once self inputs g = Ok (inputs', g') →
  length inputs' = length inputs + (if abandoned self inputs g then 0 else 1).
Proof.
  intros Hrun. destruct (decide (length inputs < 2)) as [Hshort|Hlong].
  { by rewrite insert_once_short in Hrun. }
  destruct (insert_once_unfold inputs g) as (w & Hw & Heq); [lia|].
  rewrite Heq in Hrun. unfold abandoned. rewrite Hw.
  destruct (RandomInsertion._check_skip self w).
  - injection Hrun as <- <-. lia.
  - apply bind_Ok in Hrun as ([synonym g1] & _ & Hrun).
    injection Hrun as <- <-.
    rewrite length_app, length_take. simpl. rewrite length_drop. lia.
Qed.

(** The length of what the loop returns: one token more for every
    iteration that was not abandoned. *)
Lemma insert_loop_length (n : nat) (inputs out : list Token) (g g' : Generator) :
  RandomInsertion.insert_loop self n inputs g = Ok (out, g') →
  length out = length inputs + non_abandoned self n inputs g
  ∧ non_abandoned self n inputs g ≤ n.
Proof.
  revert inputs g. induction n as [|n IH]; intros inputs g Hrun; simpl in *.
  - injection Hrun as <- <-. lia.
  - apply bind_Ok in Hrun as ([inputs1 g1] & Honce & Hrun).
    rewrite Honce. apply insert_once_length in Honce.
    destruct (IH _ _ Hrun) as [Hlen Hle].
    destruct (abandoned self inputs g); lia.
Qed.
End insertion_loop.

Section insertion_total.
Context `{RandomBackend}.
Variable self : RandomInsertion.t.

Lemma pick_synonym_succeeds (original_word : Token) (g : Generator) :
  can_insert self → succeeds (RandomInsertion.pick_synonym self original_word g).
Proof.
  unfold can_insert, RandomInsertion.pick_synonym.
  intros [[fn ->] | [[-> Hlist] | (-> & -> & [fn ->])]]; [done| |done].
  destruct (RandomInsertion.insertion_list self) as [[|tok l]|]; try done.
  simpl.
  match goal with
  | |- context [getitem (tok :: l) ?i] =>
      destruct (getitem_lt (tok :: l) i) as (synonym & -> & _); [simpl; lia|]
  end.
  done.
Qed.

(** On a sequence of two or more tokens every iteration goes through. *)
Lemma insert_loop_succeeds (n : nat) (inputs : list Token) (g : Generator) :
  can_insert self → 2 ≤ length inputs →
  succeeds (RandomInsertion.insert_loop self n inputs g).
Proof.
  intros Hcan. revert inputs g. induction n as [|n IH]; intros inputs g Hlen;
    simpl; [done|].
  destruct (RandomInsertion.insert_once self inputs g) as [[inputs1 g1]|e] eqn:Honce.
  - simpl. apply IH. apply insert_once_length in Honce. lia.
  - exfalso. destruct (insert_once_unfold self inputs g Hlen) as (w & _ & Heq).
    rewrite Heq in Honce.
    destruct (RandomInsertion._check_skip self w); [done|].
    pose proof (pick_synonym_succeeds w (make_seeds g).2 Hcan) as Hpick.
    destruct (RandomInsertion.pick_synonym self w (make_seeds g).2)
      as [[synonym g1]|]; done.
Qed.
End insertion_total.

(** ** RandomInsertion: the whole call *)

Lemma map_fn_Forall2 {A B S} (fn : A → S → result (B * S)) (R : A → B → Prop)
    (xs : list A) (s : S) (ys : list B) (s' : S) :
  (∀ x s y s', fn x s = Ok (y, s') → R x y) →
  map_fn fn xs s = Ok (ys, s') → Forall2 R xs ys.
Proof.
  intros Hfn. revert s ys. induction xs as [|x xs IH]; intros s ys Hmap; simpl in *.
  - injection Hmap as <- <-. constructor.
  - apply bind_Ok in Hmap as ([y s1] & Hx & Hmap).
    apply bind_Ok in Hmap as ([ys1 s2] & Hxs & Hmap).
    injection Hmap as <- <-. constructor; eauto.
Qed.

Section insertion_call.
Context `{RandomBackend}.
Variable self : RandomInsertion.t.

Lemma num_to_select_allotted (rows : list (list Token)) (g : Generator) :
  Forall2 (allotted self) rows (RandomInsertion.num_to_select self rows g).1.
Proof.
  unfold RandomInsertion.num_to_select. simpl.
  apply Forall2_same_length_lookup_2.
  - destruct (RandomInsertion.max_insertions self);
      by rewrite ?length_fmap, length_imap, length_fmap.
  - intros i row n Hrow Hn. unfold allotted.
    destruct (RandomInsertion.max_insertions self) as [m|] eqn:Hmax.
    + rewrite list_lookup_fmap, list_lookup_imap, list_lookup_fmap, Hrow in Hn.
      simpl in Hn. injection Hn as <-.
      pose proof (binomial_sample_le (key g, counter g) (length (length <$> rows))
                    i (length row) (RandomInsertion.rate self)).
      split; [lia|]. intros ? [= <-]. lia.
    + rewrite list_lookup_imap, list_lookup_fmap, Hrow in Hn.
      simpl in Hn. injection Hn as <-.
      split; [apply binomial_sample_le | done].
Qed.

(** A rank-2 call returns as many sequences as it was given; each has
    grown by the number of iterations that were not abandoned, which is at
    most the length it had and at most [max_insertions]. *)
Lemma insertion_call_lengths (rows outputs : list (list Token)) (g g' : Generator) :
  RandomInsertion.call self g (Ragged rows) = Ok (Ragged outputs, g') →
  Forall2 (λ row output,
             length row ≤ length output
             ∧ length output ≤ length row + length row
             ∧ ∀ m, RandomInsertion.max_insertions self = Some m →
                    length output ≤ length row + Z.to_nat m)
    rows outputs.
Proof.
  unfold RandomInsertion.call, normalize_rank.
  cbv beta iota delta [mbind result_bind]. intros Hcall.
  pose proof (num_to_select_allotted rows g) as Hnums.
  destruct (RandomInsertion.num_to_select self rows g) as [nums g1]. simpl in *.
  apply bind_Ok in Hcall as ([inserted g2] & Hmap & Hcall).
  injection Hcall as <- <-.
  apply (map_fn_Forall2 _
           (λ x output, ∃ k, k ≤ x.2 ∧ length output = length x.1 + k))
    in Hmap.
  2:{ intros [row n] s out s' Hrun. simpl in *.
      apply insert_loop_length in Hrun as [Hlen Hle]. eauto. }
  apply Forall2_same_length_lookup_2.
  - apply Forall2_length in Hmap, Hnums.
    rewrite length_zip_with in Hmap. lia.
  - intros i row output Hrow Houtput.
    destruct (Forall2_lookup_l _ _ _ _ _ Hnums Hrow) as (n & Hn & [Hle Hcap]).
    assert (zip rows nums !! i = Some (row, n)) as Hzip.
    { apply lookup_zip_with_Some. eauto. }
    destruct (Forall2_lookup_lr _ _ _ _ _ _ Hmap Hzip Houtput) as (k & Hk & Hlen).
    simpl in *. split; [lia|]. split; [lia|].
    intros m Hm. specialize (Hcap m Hm). lia.
Qed.

(** On a dense input of known shape the trace of [_insert] fails. *)
Lemma insertion_call_static (inputs : Tensor) (g : Generator) (n : nat) :
  static_row_length inputs = Some n →
  is_ValueError (RandomInsertion.call self g inputs).
Proof.
  intros Hn. destruct inputs as [| | | |l|m rows]; try discriminate;
    unfold RandomInsertion.call, RandomInsertion.trace__insert; simpl;
    by case_bool_decide.
Qed.

(** A call that returns was made on an input whose row length the trace
    does not know. *)
Lemma insertion_call_Ok_static (inputs outputs : Tensor) (g g' : Generator) :
  RandomInsertion.call self g inputs = Ok (outputs, g') →
  static_row_length inputs = None.
Proof.
  intros Hcall. destruct (static_row_length inputs) as [n|] eqn:Hn; [|done].
  pose proof (insertion_call_static inputs g n Hn) as Hraise.
  by rewrite Hcall in Hraise.
Qed.

(** A rank-1 input comes back rank 1, a rank-2 input rank 2 with as many
    rows as it had. *)
Lemma insertion_call_rank (inputs outputs : Tensor) (g g' : Generator) :
  RandomInsertion.call self g inputs = Ok (outputs, g') →
  rank outputs = rank inputs
  ∧ length (examples outputs) = length (examples inputs).
Proof.
  intros Hcall. pose proof (insertion_call_Ok_static _ _ _ _ Hcall) as Hstatic.
  revert Hcall. unfold RandomInsertion.call, normalize_rank.
  cbv beta iota delta [mbind result_bind]. intros Hcall.
  destruct inputs as [|l|rows| | |]; try discriminate;
    cbv beta iota zeta delta [RandomInsertion.trace__insert static_row_length]
      in Hcall.
  - destruct (RandomInsertion.num_to_select self [l] g) as [nums g1].
    apply bind_Ok in Hcall as ([inserted g2] & _ & Hcall).
    apply bind_Ok in Hcall as (squeezed & Hsqueeze & Hcall).
    injection Hcall as <- <-.
    destruct inserted as [|row [|]]; try discriminate.
    by injection Hsqueeze as <-.
  - pose proof (num_to_select_allotted rows g) as Hnums.
    destruct (RandomInsertion.num_to_select self rows g) as [nums g1].
    apply bind_Ok in Hcall as ([inserted g2] & Hmap & Hcall).
    injection Hcall as <- <-. split; [done|]. simpl in *.
    apply (map_fn_Forall2 _ (λ _ _, True)) in Hmap; [|done].
    apply Forall2_length in Hmap, Hnums.
    rewrite length_zip_with in Hmap. lia.
Qed.

(** What a call on a ragged batch returns is a ragged batch. *)
Lemma insertion_call_Ragged_Ok (rows : list (list Token)) (outputs : Tensor)
    (g g' : Generator) :
  RandomInsertion.call self g (Ragged rows) = Ok (outputs, g') →
  outputs = Ragged (examples outputs).
Proof.
  unfold RandomInsertion.call, normalize_rank.
  cbv beta iota zeta delta [mbind result_bind RandomInsertion.trace__insert
                            static_row_length].
  destruct (RandomInsertion.num_to_select self rows g) as [nums g1].
  destruct (map_fn _ _ g1) as [[inserted g2]|]; [|done].
  by intros [= <- <-].
Qed.
End insertion_call.

(** C4 (fails on the code).  [RandomInsertion(rate=1, insertion_list=["wind"],
    seed=42)] called on the batch [[["Hey"]]]: one insertion is selected for
    the one-token row, the index tensor drawn with the shape of the row has
    a single entry, and reading [index[1]] is out of range.  No output is
    produced, where the specification promises one of length 1 plus the number of
    insertions. *)
Theorem insertion_single_token_out_of_range `{RandomBackend} (env : Env) :
  insertion_run env (insertion_args 1 None (Some [TStr "wind"]) None)
    (Ragged [[TStr "Hey"]])
  = Raise (InvalidArgumentError "slice index out of bounds").
Proof.
  unfold insertion_run.
  destruct (RandomInsertion.__init__ env
              (insertion_args 1 None (Some [TStr "wind"]) None))
    as [[self g]|e] eqn:Hinit; [|by vm_compute in Hinit].
  vm_compute in Hinit. injection Hinit as <- <-.
  unfold RandomInsertion.call, RandomInsertion.num_to_select. simpl.
  change (1 # 1) with 1%Q. rewrite binomial_sample_certain. reflexivity.
Qed.

(** ** Batching *)




(** ** Construction *)

Lemma count_None_supplied {A B C} (a : option A) (b : option B) (c : option C) :
  count_None [bool_decide (is_Some a); bool_decide (is_Some b);
              bool_decide (is_Some c)]
  = 3 - num_supplied a b c.
Proof. destruct a, b, c; reflexivity. Qed.

Lemma num_supplied_0 {A B C} (a : option A) (b : option B) (c : option C) :
  num_supplied a b c = 0 → a = None ∧ b = None ∧ c = None.
Proof. destruct a, b, c; done. Qed.

Lemma negative_max_insertions (m : option Z) :
  from_option (λ m, bool_decide (m < 0)%Z) false m = false
  ↔ ∀ z, m = Some z → (0 ≤ z)%Z.
Proof.
  destruct m as [z|]; simpl.
  - rewrite bool_decide_eq_false. split.
    + intros Hz ? [= <-]. lia.
    + intros Hz. specialize (Hz z eq_refl). lia.
  - split; [intros _ ? [=] | done].
Qed.

Lemma rate_out_of_range (rate : Q) :
  bool_decide (1 < rate)%Q || bool_decide (rate < 0)%Q = false
  ↔ (0 <= rate)%Q ∧ (rate <= 1)%Q.
Proof.
  rewrite orb_false_iff, !bool_decide_eq_false. split.
  - intros [H1 H0]. split; by apply Qnot_lt_le.
  - intros [H0 H1]. split; by apply Qle_not_lt.
Qed.

(** The hash table of the skip list can be built over strings, and over
    nothing else. *)
Lemma build_table_strings (skip_list : option (list Token)) :
  string_keys skip_list →
  build_table skip_list = Ok (if truthy skip_list then skip_list else None).
Proof.
  unfold string_keys, build_table, StaticHashTable_of.
  destruct skip_list as [[|key keys]|]; try done.
  cbn [truthy from_option id]. by intros ->.
Qed.

Lemma build_table_Ok (skip_list table : option (list Token)) :
  build_table skip_list = Ok table →
  string_keys skip_list
  ∧ table = if truthy skip_list then skip_list else None.
Proof.
  unfold string_keys, build_table, StaticHashTable_of.
  destruct skip_list as [[|key keys]|]; cbn [truthy from_option id];
    try (by intros [= <-]).
  destruct (forallb is_string (key :: keys)); [simpl; by intros [= <-]|].
  by destruct (forallb is_int (key :: keys)).
Qed.

Lemma build_table_integers (key : Z) (keys : list Token) :
  forallb is_int keys = true →
  build_table (Some (TInt key :: keys))
  = Raise (NotFoundError
      "No OpKernel was registered to support Op 'HashTableV2' with these attrs.").
Proof.
  intros Hkeys. unfold build_table, StaticHashTable_of.
  cbn [truthy from_option id forallb is_string is_int andb]. by rewrite Hkeys.
Qed.

Lemma swaps_init_valid (env : Env) (a : RandomSwaps.Args) :
  succeeds (check_dtype (RandomSwaps.a_kwargs a)) → swaps_args_valid a →
  string_keys (RandomSwaps.a_skip_list a) →
  succeeds (RandomSwaps.__init__ env a).
Proof.
  intros Hdtype [Hswaps Hskip] Hkeys. unfold RandomSwaps.__init__.
  destruct (check_dtype (RandomSwaps.a_kwargs a)) as [kwargs|]; [simpl|done].
  rewrite count_None_supplied.
  rewrite !bool_decide_eq_false_2 by lia.
  by rewrite build_table_strings.
Qed.

Lemma swaps_init_invalid (env : Env) (a : RandomSwaps.Args) :
  succeeds (check_dtype (RandomSwaps.a_kwargs a)) → ¬ swaps_args_valid a →
  is_ValueError (RandomSwaps.__init__ env a).
Proof.
  intros Hdtype Hinvalid. unfold RandomSwaps.__init__.
  destruct (check_dtype (RandomSwaps.a_kwargs a)) as [kwargs|]; [simpl|done].
  rewrite count_None_supplied.
  case_bool_decide; [done|]. case_bool_decide; [done|].
  destruct Hinvalid. split; lia.
Qed.

Lemma insertion_init_valid (env : Env) (a : RandomInsertion.Args) :
  succeeds (check_dtype (RandomInsertion.a_kwargs a)) → insertion_args_valid a →
  string_keys (RandomInsertion.a_skip_list a) →
  succeeds (RandomInsertion.__init__ env a).
Proof.
  intros Hdtype (Hmax & Hrate & Hskip & Hins) Hkeys.
  unfold RandomInsertion.__init__.
  destruct (check_dtype (RandomInsertion.a_kwargs a)) as [kwargs|]; [simpl|done].
  apply negative_max_insertions in Hmax as ->.
  apply rate_out_of_range in Hrate as ->.
  rewrite !count_None_supplied.
  rewrite !bool_decide_eq_false_2 by lia.
  by rewrite build_table_strings.
Qed.

Lemma insertion_init_invalid (env : Env) (a : RandomInsertion.Args) :
  succeeds (check_dtype (RandomInsertion.a_kwargs a)) → ¬ insertion_args_valid a →
  is_ValueError (RandomInsertion.__init__ env a).
Proof.
  intros Hdtype Hinvalid. unfold RandomInsertion.__init__.
  destruct (check_dtype (RandomInsertion.a_kwargs a)) as [kwargs|]; [simpl|done].
  destruct (from_option _ false _) eqn:Hmax; [done|].
  destruct (_ || _) eqn:Hrate; [done|].
  pose proof (proj1 (negative_max_insertions _) Hmax) as Hmax'.
  pose proof (proj1 (rate_out_of_range _) Hrate) as Hrate'.
  clear Hmax Hrate. rewrite !count_None_supplied.
  case_bool_decide; [done|]. case_bool_decide; [done|].
  destruct Hinvalid. repeat split; try done; try tauto; lia.
Qed.

Lemma construction_raises_unless_valid (env : Env) :
  (∀ a, ¬ swaps_args_valid a → raises (RandomSwaps.__init__ env a))
  ∧ (∀ a, ¬ insertion_args_valid a → raises (RandomInsertion.__init__ env a)).
Proof.
  split.
  - intros a Hinvalid.
    destruct (check_dtype (RandomSwaps.a_kwargs a)) as [kwargs|e] eqn:Hdtype.
    + pose proof (swaps_init_invalid env a) as Hraise. rewrite Hdtype in Hraise.
      specialize (Hraise I Hinvalid).
      by destruct (RandomSwaps.__init__ env a).
    + unfold RandomSwaps.__init__. by rewrite Hdtype.
  - intros a Hinvalid.
    destruct (check_dtype (RandomInsertion.a_kwargs a)) as [kwargs|e] eqn:Hdtype.
    + pose proof (insertion_init_invalid env a) as Hraise.
      rewrite Hdtype in Hraise. specialize (Hraise I Hinvalid).
      by destruct (RandomInsertion.__init__ env a).
    + unfold RandomInsertion.__init__. by rewrite Hdtype.
Qed.

(** C6 (fails on the code).  The constructors check their parameters as
    the claim says: a negative [swaps], a negative [max_insertions], a [rate]
    outside [[0, 1]], more than one skip mechanism, or a number of insertion
    mechanisms other than one always raise (a [ValueError], when the dtype
    is accepted), and valid parameters construct when the skip list is
    absent, empty or a list of strings.  But with a skip list of integer
    ids, as in [RandomSwaps(swaps=3, skip_list=[2])] and
    [RandomInsertion(rate=0.4, max_insertions=2, insertion_list=[7],
    skip_list=[2])], construction raises a [NotFoundError] although every
    parameter is valid: the constructor's last statement builds a hash
    table from the skip list to [True], and there is none from integers to
    booleans. *)
Theorem construction_raises_on_integer_skip_list (env : Env) :
  (∀ a, ¬ swaps_args_valid a → raises (RandomSwaps.__init__ env a))
  ∧ (∀ a, succeeds (check_dtype (RandomSwaps.a_kwargs a)) →
          ¬ swaps_args_valid a → is_ValueError (RandomSwaps.__init__ env a))
  ∧ (∀ a, succeeds (check_dtype (RandomSwaps.a_kwargs a)) →
          swaps_args_valid a → string_keys (RandomSwaps.a_skip_list a) →
          succeeds (RandomSwaps.__init__ env a))
  ∧ (∀ a, ¬ insertion_args_valid a → raises (RandomInsertion.__init__ env a))
  ∧ (∀ a, succeeds (check_dtype (RandomInsertion.a_kwargs a)) →
          ¬ insertion_args_valid a →
          is_ValueError (RandomInsertion.__init__ env a))
  ∧ (∀ a, succeeds (check_dtype (RandomInsertion.a_kwargs a)) →
          insertion_args_valid a → string_keys (RandomInsertion.a_skip_list a) →
          succeeds (RandomInsertion.__init__ env a))
  ∧ (swaps_args_valid (swaps_args 3 (Some [TInt 2]))
     ∧ RandomSwaps.__init__ env (swaps_args 3 (Some [TInt 2]))
       = Raise (NotFoundError
           "No OpKernel was registered to support Op 'HashTableV2' with these attrs."))
  ∧ (insertion_args_valid
       (insertion_args (2 # 5) (Some 2%Z) (Some [TInt 7]) (Some [TInt 2]))
     ∧ RandomInsertion.__init__ env
         (insertion_args (2 # 5) (Some 2%Z) (Some [TInt 7]) (Some [TInt 2]))
       = Raise (NotFoundError
           "No OpKernel was registered to support Op 'HashTableV2' with these attrs.")).
Proof.
  destruct (construction_raises_unless_valid env) as [Hswaps Hinsertion].
  split; [exact Hswaps|]. split; [apply swaps_init_invalid|].
  split; [apply swaps_init_valid|]. split; [exact Hinsertion|].
  split; [apply insertion_init_invalid|]. split; [apply insertion_init_valid|].
  split; (split; [|reflexivity]).
  - split; [vm_compute; discriminate | vm_compute; lia].
  - split; [|split; [|split]].
    + intros m [= <-]. vm_compute. discriminate.
    + split; vm_compute; discriminate.
    + vm_compute. lia.
    + reflexivity.
Qed.

Lemma construction_raises_on_integer_skip_list_witness :
  raises (RandomSwaps.__init__ test_env (swaps_args (-1) None))
  ∧ is_ValueError (RandomSwaps.__init__ test_env (swaps_args (-1) None))
  ∧ succeeds (RandomSwaps.__init__ test_env (swaps_args 3 (Some [TStr "I"])))
  ∧ raises (RandomInsertion.__init__ test_env
              (insertion_args (3 # 2) None (Some [TStr "wind"]) None))
  ∧ is_ValueError (RandomInsertion.__init__ test_env
                     (insertion_args (2 # 5) (Some (-2)%Z) (Some [TStr "wind"]) None))
  ∧ succeeds (RandomInsertion.__init__ test_env
                (insertion_args (2 # 5) (Some 2%Z) (Some [TStr "wind"])
                   (Some [TStr "I"]))).
Proof.
  destruct (construction_raises_on_integer_skip_list test_env)
    as (Hs1 & Hs2 & Hs3 & Hi1 & Hi2 & Hi3 & _).
  split; [|split; [|split; [|split; [|split]]]].
  - apply Hs1. intros [Hswaps _]. vm_compute in Hswaps. by apply Hswaps.
  - apply Hs2; [exact I|]. intros [Hswaps _]. vm_compute in Hswaps. by apply Hswaps.
  - apply Hs3; [exact I | | reflexivity].
    split; [vm_compute; discriminate | vm_compute; lia].
  - apply Hi1. intros (_ & [_ Hrate] & _). vm_compute in Hrate. by apply Hrate.
  - apply Hi2; [exact I|]. intros (Hmax & _).
    specialize (Hmax (-2)%Z eq_refl). vm_compute in Hmax. by apply Hmax.
  - apply Hi3; [exact I | | reflexivity]. split; [|split; [|split]].
    + intros m [= <-]. vm_compute. discriminate.
    + split; vm_compute; discriminate.
    + vm_compute. lia.
    + reflexivity.
Defined.

Lemma _check_skip_None (self : RandomInsertion.t) (token : Token) :
  RandomInsertion.skip_list self = None →
  RandomInsertion.skip_fn self = None →
  RandomInsertion.skip_py_fn self = None →
  RandomInsertion._check_skip self token = false.
Proof. intros Hl Hf Hp. unfold RandomInsertion._check_skip. by rewrite Hl, Hf, Hp. Qed.

Lemma abandoned_None `{RandomBackend} (self : RandomInsertion.t)
    (inputs : list Token) (g : Generator) :
  RandomInsertion.skip_list self = None →
  RandomInsertion.skip_fn self = None →
  RandomInsertion.skip_py_fn self = None →
  abandoned self inputs g = false.
Proof.
  intros Hl Hf Hp. unfold abandoned.
  destruct (inputs !! _); [by apply _check_skip_None | done].
Qed.

(** C5.  Both constructors raise when two or more of the three skip
    mechanisms are supplied.  With none supplied (and the other arguments in
    order) construction succeeds, and the layer protects no token: RandomSwaps
    builds no skip mask, RandomInsertion's skip check answers [False] for
    every token and no iteration is abandoned. *)
Theorem skip_mechanisms_at_most_one `{RandomBackend} (env : Env) :
  (∀ a, 2 ≤ num_supplied (RandomSwaps.a_skip_list a) (RandomSwaps.a_skip_fn a)
              (RandomSwaps.a_py_skip_fn a) →
        raises (RandomSwaps.__init__ env a))
  ∧ (∀ a, 2 ≤ num_supplied (RandomInsertion.a_skip_list a)
                (RandomInsertion.a_skip_fn a) (RandomInsertion.a_skip_py_fn a) →
          raises (RandomInsertion.__init__ env a))
  ∧ (∀ a, num_supplied (RandomSwaps.a_skip_list a) (RandomSwaps.a_skip_fn a)
            (RandomSwaps.a_py_skip_fn a) = 0 →
          succeeds (check_dtype (RandomSwaps.a_kwargs a)) →
          (0 ≤ RandomSwaps.a_swaps a)%Z →
          ∃ self, RandomSwaps.__init__ env a = Ok self
                  ∧ ∀ values, RandomSwaps.skip_masks self values = None)
  ∧ (∀ a, num_supplied (RandomInsertion.a_skip_list a)
            (RandomInsertion.a_skip_fn a) (RandomInsertion.a_skip_py_fn a) = 0 →
          succeeds (check_dtype (RandomInsertion.a_kwargs a)) →
          insertion_args_valid a →
          ∃ self g, RandomInsertion.__init__ env a = Ok (self, g)
                    ∧ (∀ token, RandomInsertion._check_skip self token = false)
                    ∧ (∀ inputs g, abandoned self inputs g = false)).
Proof.
  destruct (construction_raises_unless_valid env) as [Hswaps Hinsertion].
  split; [|split; [|split]].
  - intros a Hskip. apply Hswaps. intros [_ Hle]. lia.
  - intros a Hskip. apply Hinsertion. intros (_ & _ & Hle & _). lia.
  - intros a Hnone Hdtype Hnonneg.
    pose proof (swaps_init_valid env a Hdtype) as Hinit.
    unfold RandomSwaps.__init__ in *.
    destruct (check_dtype (RandomSwaps.a_kwargs a)) as [kwargs|]; [simpl in *|done].
    destruct (num_supplied_0 _ _ _ Hnone) as (Hl & Hf & Hp).
    rewrite count_None_supplied, Hnone in *.
    rewrite !bool_decide_eq_false_2 by lia. rewrite Hl. simpl.
    eexists. split; [done|]. intros values.
    unfold RandomSwaps.skip_masks. simpl. by rewrite ?Hl, ?Hf, ?Hp.
  - intros a Hnone Hdtype (Hmax & Hrate & _ & Hins).
    unfold RandomInsertion.__init__.
    destruct (check_dtype (RandomInsertion.a_kwargs a)) as [kwargs|]; [simpl|done].
    destruct (num_supplied_0 _ _ _ Hnone) as (Hl & Hf & Hp).
    apply negative_max_insertions in Hmax as ->.
    apply rate_out_of_range in Hrate as ->.
    rewrite !count_None_supplied, Hnone, Hins.
    rewrite !bool_decide_eq_false_2 by lia. rewrite Hl. simpl.
    eexists _, _. split; [done|].
    split; [intros token; by apply _check_skip_None|].
    intros inputs g. by apply abandoned_None.
Qed.

Lemma skip_mechanisms_at_most_one_witness :
  raises (RandomSwaps.__init__ test_env swaps_two_skips)
  ∧ raises (RandomInsertion.__init__ test_env insertion_two_skips)
  ∧ (∃ self, RandomSwaps.__init__ test_env (swaps_args 3 None) = Ok self
             ∧ ∀ values, RandomSwaps.skip_masks self values = None)
  ∧ (∃ self g,
       RandomInsertion.__init__ test_env
         (insertion_args (2 # 5) (Some 2%Z) (Some [TStr "wind"]) None)
       = Ok (self, g)
       ∧ (∀ token, RandomInsertion._check_skip self token = false)
       ∧ (∀ inputs g, abandoned (H := counting_backend) self inputs g = false)).
Proof.
  destruct (skip_mechanisms_at_most_one (H := counting_backend) test_env)
    as (Hs2 & Hi2 & Hs0 & Hi0).
  split; [|split; [|split]].
  - apply Hs2. vm_compute. lia.
  - apply Hi2. vm_compute. lia.
  - apply Hs0; [reflexivity | exact I | vm_compute; discriminate].
  - apply Hi0; [reflexivity | exact I |]. split; [|split; [|split]].
    + intros m [= <-]. vm_compute. discriminate.
    + split; vm_compute; discriminate.
    + vm_compute. lia.
    + reflexivity.
Defined.

(** ** The dtype argument *)





(** ** Determinism *)

(** [call] reads the parameters of the layer and never the attributes of the
    keras base class. *)
Lemma swaps_call_base `{RandomBackend} (self : RandomSwaps.t) (base : Layer)
    (op : random_op) (inputs : Tensor) :
  RandomSwaps.call self op inputs
  = RandomSwaps.call
      {| RandomSwaps.base := base;
         RandomSwaps.swaps := RandomSwaps.swaps self;
         RandomSwaps.seed := RandomSwaps.seed self;
         RandomSwaps._generator := RandomSwaps._generator self;
         RandomSwaps.skip_list := RandomSwaps.skip_list self;
         RandomSwaps.skip_fn := RandomSwaps.skip_fn self;
         RandomSwaps.py_skip_fn := RandomSwaps.py_skip_fn self;
         RandomSwaps.StaticHashTable := RandomSwaps.StaticHashTable self |}
      op inputs.
Proof. destruct self. reflexivity. Qed.

Lemma insertion_call_base `{RandomBackend} (self : RandomInsertion.t)
    (base : Layer) (g : Generator) (inputs : Tensor) :
  RandomInsertion.call self g inputs
  = RandomInsertion.call
      {| RandomInsertion.base := base;
         RandomInsertion.rate := RandomInsertion.rate self;
         RandomInsertion.max_insertions := RandomInsertion.max_insertions self;
         RandomInsertion.insertion_list := RandomInsertion.insertion_list self;
         RandomInsertion.insertion_fn := RandomInsertion.insertion_fn self;
         RandomInsertion.insertion_py_fn := RandomInsertion.insertion_py_fn self;
         RandomInsertion.skip_list := RandomInsertion.skip_list self;
         RandomInsertion.skip_fn := RandomInsertion.skip_fn self;
         RandomInsertion.skip_py_fn := RandomInsertion.skip_py_fn self;
         RandomInsertion.seed := RandomInsertion.seed self;
         RandomInsertion.StaticHashTable := RandomInsertion.StaticHashTable self |}
      g inputs.
Proof. destruct self. reflexivity. Qed.

(** C9.  Two runs that construct a layer with the same arguments, among
    them an explicit seed, and invoke it on the same inputs return the same
    output, whatever the surroundings of the two runs are (the entropy
    behind [random.randint], the names keras hands out); this holds for
    RandomSwaps, from the same state of its random op, and for
    RandomInsertion. *)
Theorem same_seed_same_output `{RandomBackend} (env1 env2 : Env) :
  (∀ a seed op inputs,
     RandomSwaps.a_seed a = Some seed →
     swaps_run env1 a op inputs = swaps_run env2 a op inputs)
  ∧ (∀ a seed inputs,
       RandomInsertion.a_seed a = Some seed →
       insertion_run env1 a inputs = insertion_run env2 a inputs).
Proof.
  split.
  - intros a seed op inputs Hseed.
    unfold swaps_run, RandomSwaps.__init__. rewrite Hseed.
    destruct (check_dtype (RandomSwaps.a_kwargs a)) as [kwargs|e]; [simpl|done].
    destruct (bool_decide (_ < 0)%Z); [done|].
    destruct (bool_decide (count_None _ < 2)); [done|].
    destruct (build_table _) as [table|e]; reflexivity.
  - intros a seed inputs Hseed.
    unfold insertion_run, RandomInsertion.__init__. rewrite Hseed.
    destruct (check_dtype (RandomInsertion.a_kwargs a)) as [kwargs|e];
      [simpl|done].
    destruct (from_option _ false _); [done|].
    destruct (_ || _); [done|].
    destruct (bool_decide (count_None _ < 2)); [done|].
    destruct (bool_decide (count_None _ ≠ 2)); [done|].
    destruct (build_table _) as [table|e]; reflexivity.
Qed.

Lemma same_seed_same_output_witness :
  swaps_run (H := counting_backend) test_env swaps_unnamed 0 (Vector hey_i_like)
  = swaps_run (H := counting_backend) other_env swaps_unnamed 0 (Vector hey_i_like)
  ∧ insertion_run (H := counting_backend) test_env
      (insertion_args (2 # 5) (Some 2%Z) (Some [TStr "wind"]) None)
      (Ragged [hey_i_like; keras_and_tensorflow])
    = insertion_run (H := counting_backend) other_env
        (insertion_args (2 # 5) (Some 2%Z) (Some [TStr "wind"]) None)
        (Ragged [hey_i_like; keras_and_tensorflow]).
Proof.
  destruct (same_seed_same_output (H := counting_backend) test_env other_env)
    as [Hswaps Hinsertion].
  split.
  - apply (Hswaps _ 42%Z). reflexivity.
  - apply (Hinsertion _ 42%Z). reflexivity.
Defined.

(** ** Exported configurations *)

Lemma as_dtype_name (d : DType) : as_dtype (VStr (dtype_name d)) = Ok d.
Proof. by destruct d. Qed.

Lemma check_dtype_Ok (kwargs kwargs' : gmap string Value) :
  check_dtype kwargs = Ok kwargs' →
  ∃ v d, kwargs' !! "dtype" = Some v ∧ as_dtype v = Ok d ∧ accepted_dtype d.
Proof.
  unfold check_dtype. intros Hcheck.
  assert (∃ v d, <["dtype" := VDType tf_int32]> kwargs !! "dtype" = Some v
                 ∧ as_dtype v = Ok d ∧ accepted_dtype d) as Hdefault.
  { exists (VDType tf_int32), tf_int32. by rewrite lookup_insert_eq. }
  destruct (kwargs !! "dtype") as [v|] eqn:Hv;
    [|by injection Hcheck as <-].
  destruct v; cbv beta iota in Hcheck;
    try (by injection Hcheck as <-);
    apply bind_Ok in Hcheck as (d' & Hd & Hcheck);
    (destruct (negb (is_integer d') && negb (bool_decide (d' = tf_string)))
       eqn:Hok; [discriminate|]);
    injection Hcheck as <-; eauto.
Qed.

Lemma check_dtype_by_name (kwargs : gmap string Value) (d : DType) :
  kwargs !! "dtype" = Some (VStr (dtype_name d)) → accepted_dtype d →
  check_dtype kwargs = Ok kwargs.
Proof.
  intros Hkw Hok. unfold check_dtype. rewrite Hkw, as_dtype_name. simpl.
  by rewrite Hok.
Qed.

Lemma kw_optional_export {A} (read : Value → option A) (wrap : A → Value)
    (what : string) (o : option A) :
  (∀ a, read (wrap a) = Some a) → (∀ a, wrap a ≠ VNone) →
  kw_optional read what (Some (export wrap o)) = Ok o.
Proof.
  intros Hread Hwrap. destruct o as [a|]; [|done]. simpl.
  specialize (Hread a). specialize (Hwrap a).
  destruct (wrap a); try done; by rewrite Hread.
Qed.

Lemma insertion_config_lookup (self : RandomInsertion.t) :
  let config := RandomInsertion.get_config self in
  config !! "rate" = Some (VFloat (RandomInsertion.rate self))
  ∧ config !! "max_insertions"
    = Some (export VInt (RandomInsertion.max_insertions self))
  ∧ config !! "insertion_list"
    = Some (export VList (RandomInsertion.insertion_list self))
  ∧ config !! "insertion_fn"
    = Some (export VInsertionFn (RandomInsertion.insertion_fn self))
  ∧ config !! "insertion_py_fn"
    = Some (export VInsertionFn (RandomInsertion.insertion_py_fn self))
  ∧ config !! "skip_list" = Some (export VList (RandomInsertion.skip_list self))
  ∧ config !! "skip_fn" = Some (export VSkipFn (RandomInsertion.skip_fn self))
  ∧ config !! "skip_py_fn"
    = Some (export VSkipFn (RandomInsertion.skip_py_fn self))
  ∧ config !! "seed" = Some (VInt (RandomInsertion.seed self))
  ∧ config !! "name" = Some (VStr (name (RandomInsertion.base self)))
  ∧ foldr delete config
      ["rate"; "max_insertions"; "insertion_list"; "insertion_fn";
       "insertion_py_fn"; "skip_list"; "skip_fn"; "skip_py_fn"; "seed"; "name"]
    = <["trainable" := trainable (RandomInsertion.base self)]>
        {[ "dtype" := dtype_entry (RandomInsertion.base self) ]}.
Proof. repeat split; reflexivity. Qed.

Lemma base_kwargs_lookup (t e : Value) :
  let kwargs : gmap string Value := <["trainable" := t]> {[ "dtype" := e ]} in
  kwargs !! "trainable" = Some t ∧ kwargs !! "dtype" = Some e.
Proof. split; reflexivity. Qed.

(** Rebuilding from an export is constructing with the exported parameters,
    the layer's name, and the base layer's two entries as keyword
    arguments. *)
Lemma insertion_from_config_get_config (env : Env) (self : RandomInsertion.t) :
  RandomInsertion.from_config env (RandomInsertion.get_config self)
  = RandomInsertion.__init__ env
      {| RandomInsertion.a_rate := RandomInsertion.rate self;
         RandomInsertion.a_max_insertions := RandomInsertion.max_insertions self;
         RandomInsertion.a_insertion_list := RandomInsertion.insertion_list self;
         RandomInsertion.a_insertion_fn := RandomInsertion.insertion_fn self;
         RandomInsertion.a_insertion_py_fn := RandomInsertion.insertion_py_fn self;
         RandomInsertion.a_skip_list := RandomInsertion.skip_list self;
         RandomInsertion.a_skip_fn := RandomInsertion.skip_fn self;
         RandomInsertion.a_skip_py_fn := RandomInsertion.skip_py_fn self;
         RandomInsertion.a_seed := Some (RandomInsertion.seed self);
         RandomInsertion.a_name := Some (name (RandomInsertion.base self));
         RandomInsertion.a_kwargs :=
           <["trainable" := trainable (RandomInsertion.base self)]>
             {[ "dtype" := dtype_entry (RandomInsertion.base self) ]} |}.
Proof.
  unfold RandomInsertion.from_config.
  destruct (insertion_config_lookup self)
    as (-> & -> & -> & -> & -> & -> & -> & -> & -> & -> & ->).
  rewrite !kw_optional_export by done. reflexivity.
Qed.

(** RandomInsertion exports every argument of its constructor, and the layer
    rebuilt from the export has the same parameters, the same generator and
    the same export. *)
Lemma insertion_config_round_trip (env env' : Env) (a : RandomInsertion.Args)
    (self : RandomInsertion.t) (g : Generator) :
  RandomInsertion.__init__ env a = Ok (self, g) →
  ∃ restored,
    RandomInsertion.from_config env' (RandomInsertion.get_config self)
    = Ok (restored, g)
    ∧ RandomInsertion.get_config restored = RandomInsertion.get_config self.
Proof.
  rewrite insertion_from_config_get_config.
  unfold RandomInsertion.__init__ at 1. intros Hinit.
  apply bind_Ok in Hinit as (kwargs & Hdtype & Hinit).
  apply check_dtype_Ok in Hdtype as (v & d & Hv & Hd & Hok).
  destruct (from_option _ false _) eqn:Hmax; [discriminate|].
  destruct (_ || _) eqn:Hrate; [discriminate|].
  destruct (bool_decide (count_None _ < 2)) eqn:Hskip; [discriminate|].
  destruct (bool_decide (count_None _ ≠ 2)) eqn:Hins; [discriminate|].
  apply bind_Ok in Hinit as (table & Htable & Hinit).
  injection Hinit as <- <-.
  unfold RandomInsertion.__init__. cbn [RandomInsertion.a_kwargs].
  assert (dtype_entry (Layer__init__ env "random_insertion"
                         (RandomInsertion.a_name a) kwargs)
          = VStr (dtype_name d)) as Hentry.
  { unfold dtype_entry, Layer__init__. simpl. rewrite Hv. simpl. by rewrite Hd. }
  cbn [RandomInsertion.base]. rewrite Hentry.
  rewrite (check_dtype_by_name _ d) by done.
  simpl. rewrite Hmax, Hrate, Hskip, Hins, Htable. simpl.
  eexists. split; [reflexivity|].
  unfold RandomInsertion.get_config, Layer_get_config.
  cbn [RandomInsertion.base RandomInsertion.rate RandomInsertion.max_insertions
       RandomInsertion.insertion_list RandomInsertion.insertion_fn
       RandomInsertion.insertion_py_fn RandomInsertion.skip_list
       RandomInsertion.skip_fn RandomInsertion.skip_py_fn RandomInsertion.seed
       from_option id].
  rewrite Hentry. unfold dtype_entry, Layer__init__.
  cbn [name trainable dtype].
  destruct (base_kwargs_lookup (default (VBool true) (kwargs !! "trainable"))
              (VStr (dtype_name d))) as [-> ->].
  cbn [from_option id]. by rewrite as_dtype_name.
Qed.

(** RandomSwaps exports [swaps] and [seed] only: rebuilding from the export
    is constructing with no skip mechanism, whatever the layer had. *)
Lemma swaps_from_config_get_config (env : Env) (self : RandomSwaps.t) :
  RandomSwaps.from_config env (RandomSwaps.get_config self)
  = RandomSwaps.__init__ env
      {| RandomSwaps.a_swaps := RandomSwaps.swaps self;
         RandomSwaps.a_skip_list := None;
         RandomSwaps.a_skip_fn := None;
         RandomSwaps.a_py_skip_fn := None;
         RandomSwaps.a_seed := Some (RandomSwaps.seed self);
         RandomSwaps.a_name := Some (name (RandomSwaps.base self));
         RandomSwaps.a_kwargs :=
           <["trainable" := trainable (RandomSwaps.base self)]>
             {[ "dtype" := dtype_entry (RandomSwaps.base self) ]} |}.
Proof. reflexivity. Qed.

(** * Further properties of the two layers *)

(** ** RandomSwaps: masks and positions *)

Lemma with_flat_values_cut {A B} (rows : list (list A)) (values : list B) :
  with_flat_values rows values = cut rows values.
Proof.
  unfold with_flat_values.
  assert (∀ start, rows_of_splits values start (splits_from start rows)
                   = cut rows (drop start values)) as Hgen; [|apply Hgen].
  induction rows as [|r rs IH]; intros start; [done|].
  simpl. f_equal.
  - f_equal. lia.
  - by rewrite IH, drop_drop.
Qed.

Lemma cut_lengths {A B} (rows : list (list A)) (values : list B) :
  length (flat_values rows) ≤ length values →
  Forall2 (λ part row, length part = length row) (cut rows values) rows.
Proof.
  revert values. induction rows as [|r rs IH]; intros values Hlen; [constructor|].
  rewrite length_flat_values_cons in Hlen. simpl. constructor.
  - rewrite length_take. lia.
  - apply IH. rewrite length_drop. lia.
Qed.

Lemma mask_row_all {A} (row : list A) (mask : list bool) :
  length row ≤ length mask → Forall (λ b, b = true) mask → mask_row row mask = row.
Proof.
  unfold mask_row. revert mask.
  induction row as [|a row IH]; intros [|b mask] Hlen Hall; simpl in *;
    try done; try lia.
  inversion Hall; subst. rewrite filter_cons_True by done. simpl.
  f_equal. apply IH; [lia | done].
Qed.

Lemma length_mask_row {A} (row : list A) (mask : list bool) :
  length row = length mask →
  length (mask_row row mask) = length (filter (λ b, b = true) mask).
Proof.
  unfold mask_row. revert mask.
  induction row as [|a row IH]; intros [|b mask] Hlen; simpl in *; try done.
  destruct b.
  - rewrite !filter_cons_True by done. simpl. f_equal. apply IH. lia.
  - rewrite !filter_cons_False by done. apply IH. lia.
Qed.

Lemma length_masked_cut {A} (rows : list (list A)) (positions : list nat)
    (mask : list bool) :
  length positions = length (flat_values rows) →
  length mask = length (flat_values rows) →
  length (concat (boolean_mask (cut rows positions) (cut rows mask)))
  = length (filter (λ b, b = true) mask).
Proof.
  revert positions mask.
  induction rows as [|r rs IH]; intros positions mask Hp Hm.
  - destruct mask; [done|]. done.
  - rewrite length_flat_values_cons in Hp, Hm. simpl.
    rewrite length_app, IH by (rewrite length_drop; lia).
    rewrite length_mask_row by (rewrite !length_take; lia).
    rewrite <-length_app, <-filter_app. by rewrite take_drop.
Qed.

Lemma boolean_mask_all_true {A} (rows : list (list A)) (start : nat)
    (keep : list bool) :
  Forall (λ b, b = true) keep → length (flat_values rows) ≤ length keep →
  boolean_mask (ranges start rows) (cut rows keep) = ranges start rows.
Proof.
  revert start keep.
  induction rows as [|r rs IH]; intros start keep Hkeep Hlen; [done|].
  rewrite length_flat_values_cons in Hlen. simpl.
  unfold boolean_mask in *. simpl. f_equal.
  - apply mask_row_all.
    + rewrite length_seq, length_take. lia.
    + by apply Forall_take.
  - apply IH.
    + by apply Forall_drop.
    + rewrite length_drop. lia.
Qed.

Lemma length_skip_masks (self : RandomSwaps.t) (values : list Token)
    (skip_masks : list bool) :
  RandomSwaps.skip_masks self values = Some skip_masks →
  length skip_masks = length values.
Proof.
  unfold RandomSwaps.skip_masks. intros Hm.
  destruct (truthy _); [injection Hm as <-; by rewrite length_fmap|].
  destruct (RandomSwaps.skip_fn self);
    [injection Hm as <-; by rewrite length_fmap|].
  destruct (RandomSwaps.py_skip_fn self); [|done].
  injection Hm as <-. by rewrite length_fmap.
Qed.

Lemma eligible_positions_unmasked (self : RandomSwaps.t) (rows : list (list Token)) :
  none_protected self rows → eligible_positions self rows = ranges 0 rows.
Proof.
  intros Hnone. unfold eligible_positions.
  destruct (RandomSwaps.skip_masks self (flat_values rows)) as [m|] eqn:Hm;
    [|by apply rows_of_splits_seq].
  pose proof (length_skip_masks _ _ _ Hm) as Hlen.
  specialize (Hnone m Hm).
  unfold with_flat_values at 1. rewrite rows_of_splits_seq by done.
  rewrite with_flat_values_cut. apply boolean_mask_all_true.
  - apply Forall_fmap. eapply Forall_impl; [exact Hnone|]. by intros ? ->.
  - rewrite length_fmap. lia.
Qed.

Lemma swaps_layer_built (env : Env) :
  RandomSwaps.__init__ env (swaps_args 3 None) = Ok (swaps_layer 3 None)
  ∧ RandomSwaps.__init__ env (swaps_args 3 (Some [TStr "I"]))
    = Ok (swaps_layer 3 (Some [TStr "I"])).
Proof. split; reflexivity. Qed.

Lemma insertion_layer_built (env : Env) :
  RandomInsertion.__init__ env
    (insertion_args (2 # 5) (Some 2%Z) (Some [TStr "wind"]) None)
  = Ok (insertion_layer (2 # 5) (Some 2%Z) (Some [TStr "wind"]) None, from_seed 42).
Proof. reflexivity. Qed.

(** ** RandomSwaps: what a call returns *)
Section swaps_returns.
Context `{RandomBackend}.
Variable self : RandomSwaps.t.
Hypothesis Htraced : RandomSwaps.masked_by_py_function self = false.

Lemma swaps_call_unfold (rows : list (list Token)) (op : random_op) :
  RandomSwaps.call self op (Ragged rows)
  = '(shuffled, op) ← map_fn (RandomSwaps._swap self) (eligible_positions self rows) op;
    values ← gather (flat_values rows) (flat_values shuffled);
    swapped ← from_row_splits values (row_splits rows);
    Ok (Ragged swapped, op).
Proof. by rewrite swaps_call_Ragged, Htraced. Qed.

Lemma swaps_call_rearranged (rows : list (list Token)) (op op' : random_op)
    (shuffled : list (list nat)) :
  none_protected self rows →
  map_fn (RandomSwaps._swap self) (ranges 0 rows) op = Ok (shuffled, op') →
  Forall2 (≡ₚ) shuffled (ranges 0 rows) →
  RandomSwaps.call self op (Ragged rows)
  = Ok (Ragged (fmap (M := list)
                  (λ i, default (TInt 0) (flat_values rows !! i)) <$> shuffled),
        op').
Proof.
  intros Hnone Hmap Hsh.
  rewrite swaps_call_unfold, eligible_positions_unmasked, Hmap by done.
  cbv beta iota delta [mbind result_bind].
  set (read := λ i, default (TInt 0) (flat_values rows !! i)).
  rewrite (gather_in_range (TInt 0)).
  2:{ change (flat_values shuffled) with (concat shuffled). apply Forall_concat.
      pose proof (ranges_lt rows 0) as Hlt. simpl in Hlt.
      clear -Hsh Hlt. induction Hsh as [|p rg ps rgs Hp _ IH]; [constructor|].
      inversion Hlt; subst. constructor; [by rewrite Hp | by apply IH]. }
  fold read. change (flat_values shuffled) with (concat shuffled).
  assert (read <$> concat shuffled = concat (fmap (M := list) read <$> shuffled))
    as ->.
  { clear. induction shuffled as [|p ps IH]; [done|]. simpl.
    by rewrite fmap_app, IH. }
  pose proof (ranges_slices (TInt 0) rows (flat_values rows) 0 eq_refl) as Hslices.
  fold read in Hslices.
  destruct (shuffled_slices read shuffled (ranges 0 rows) rows Hsh Hslices)
    as [Hlen _].
  by rewrite from_row_splits_concat.
Qed.

Lemma map_fn__swap_untouched (positions : list (list nat)) (op : random_op) :
  RandomSwaps.swaps self = 0%Z ∨ Forall (λ p, length p = 1) positions →
  map_fn (RandomSwaps._swap self) positions op = Ok (positions, op).
Proof.
  intros [Hzero|Hone]; [by apply map_fn__swap_zero|].
  induction Hone as [|p ps Hp _ IH]; [done|].
  assert (RandomSwaps._swap self p op = Ok (p, op)) as Hp'.
  { unfold RandomSwaps._swap. by rewrite bool_decide_eq_true_2. }
  simpl. rewrite Hp'. simpl. by rewrite IH.
Qed.

Lemma swaps_call_untouched (rows : list (list Token)) (op : random_op) :
  none_protected self rows →
  RandomSwaps.swaps self = 0%Z ∨ Forall (λ row, length row = 1) rows →
  RandomSwaps.call self op (Ragged rows) = Ok (Ragged rows, op).
Proof.
  intros Hnone Hcase.
  rewrite (swaps_call_rearranged rows op op (ranges 0 rows)); try done.
  - f_equal. f_equal. f_equal. apply slices_eq.
    by apply (ranges_slices (TInt 0) rows (flat_values rows) 0).
  - apply map_fn__swap_untouched. destruct Hcase as [?|Hone]; [by left|right].
    assert (∀ start, Forall (λ p, length p = 1) (ranges start rows)) as Hall;
      [|apply Hall].
    clear -Hone.
    induction Hone as [|r rs Hr _ IH]; intros start; simpl; constructor.
    + by rewrite length_seq.
    + apply IH.
Qed.
End swaps_returns.

(** A layer that computes no mask has none computed by [tf.py_function],
    and protects nothing. *)
Lemma unmasked (self : RandomSwaps.t) (values : list Token) :
  RandomSwaps.skip_masks self values = None →
  RandomSwaps.masked_by_py_function self = false
  ∧ ∀ rows, none_protected self rows.
Proof.
  unfold none_protected, RandomSwaps.masked_by_py_function, RandomSwaps.skip_masks.
  destruct (truthy (RandomSwaps.skip_list self)); [intros [=]|].
  destruct (RandomSwaps.skip_fn self); [intros [=]|].
  destruct (RandomSwaps.py_skip_fn self); [intros [=]|].
  intros _. split; [reflexivity|]. intros rows skip_masks [=].
Qed.

(** X1.  When a layer of RandomSwaps has no skip mechanism (no mask is
    computed) and no row of a ragged batch is empty, the call returns a
    batch whose rows are, one by one, rearrangements of the input rows: the
    same tokens as often, in the same row. *)
Theorem swaps_rows_are_rearranged `{RandomBackend} (self : RandomSwaps.t)
    (rows : list (list Token)) (op : random_op) :
  RandomSwaps.skip_masks self (flat_values rows) = None →
  Forall (λ row, row ≠ []) rows →
  ∃ swapped op',
    RandomSwaps.call self op (Ragged rows) = Ok (Ragged swapped, op')
    ∧ Forall2 (≡ₚ) swapped rows.
Proof.
  intros [Htraced Hnone]%unmasked Hrows. specialize (Hnone rows).
  destruct (map_fn__swap_ranges self rows 0 op (or_introl Hrows))
    as (sh & op' & Hmap & Hsh).
  eexists _, op'. split; [by apply swaps_call_rearranged|].
  pose proof (ranges_slices (TInt 0) rows (flat_values rows) 0 eq_refl) as Hslices.
  by destruct (shuffled_slices _ sh (ranges 0 rows) rows Hsh Hslices).
Qed.

Lemma swaps_rows_are_rearranged_witness :
  ∃ swapped op',
    RandomSwaps.call (H := counting_backend) (swaps_layer 3 None) 0
      (Ragged [hey_i_like; keras_and_tensorflow])
    = Ok (Ragged swapped, op')
    ∧ Forall2 (≡ₚ) swapped [hey_i_like; keras_and_tensorflow].
Proof.
  apply (swaps_rows_are_rearranged (H := counting_backend)).
  - reflexivity.
  - by repeat constructor.
Defined.

(** X2.  With [swaps = 0] and no skip mechanism, a call of RandomSwaps on a
    ragged batch returns the batch as it is, empty rows included, and
    leaves the random op in the state it was in. *)
Theorem swaps_zero_returns_input `{RandomBackend} (self : RandomSwaps.t)
    (rows : list (list Token)) (op : random_op) :
  RandomSwaps.skip_masks self (flat_values rows) = None →
  RandomSwaps.swaps self = 0%Z →
  RandomSwaps.call self op (Ragged rows) = Ok (Ragged rows, op).
Proof.
  intros [Htraced Hnone]%unmasked Hzero.
  apply swaps_call_untouched; [done | done | by left].
Qed.

Lemma swaps_zero_returns_input_witness :
  RandomSwaps.call (H := counting_backend) (swaps_layer 0 None) 5
    (Ragged [[]; hey_i_like])
  = Ok (Ragged [[]; hey_i_like], 5).
Proof.
  apply (swaps_zero_returns_input (H := counting_backend)).
  - reflexivity.
  - reflexivity.
Defined.

(** X3.  Without a skip mechanism, a ragged batch in which every row holds
    exactly one token is returned as it is whatever [swaps] is, and nothing
    is drawn: [_swap] returns early for a row of size one.  A dense input
    whose rows are known to hold one token is another matter: with one swap
    or more, the trace of [_swap] goes through the loop as well and the
    call raises a [ValueError]. *)
Theorem swaps_single_token_rows_untouched `{RandomBackend} (self : RandomSwaps.t)
    (op : random_op) :
  (∀ rows, RandomSwaps.skip_masks self (flat_values rows) = None →
           Forall (λ row, length row = 1) rows →
           RandomSwaps.call self op (Ragged rows) = Ok (Ragged rows, op))
  ∧ (∀ inputs, static_row_length inputs = Some 1 →
               RandomSwaps.skip_masks self (flat_values (examples inputs)) = None →
               (0 < RandomSwaps.swaps self)%Z →
               is_ValueError (RandomSwaps.call self op inputs)).
Proof.
  split.
  - intros rows [Htraced Hnone]%unmasked Hone.
    apply swaps_call_untouched; [done | done | by right].
  - intros inputs Hstatic Hmask Hswaps.
    rewrite (swaps_call_static self op inputs 1 Hstatic), Hmask.
    unfold RandomSwaps.trace__swap.
    by rewrite (bool_decide_eq_true_2 (0 < _)%Z) by done.
Qed.

Lemma swaps_single_token_rows_untouched_witness :
  RandomSwaps.call (H := counting_backend) (swaps_layer 3 None) 5
    (Ragged [[TStr "Hey"]; [TStr "Keras"]])
  = Ok (Ragged [[TStr "Hey"]; [TStr "Keras"]], 5)
  ∧ is_ValueError (RandomSwaps.call (H := counting_backend) (swaps_layer 3 None) 5
                     (DenseVector [TStr "Hey"])).
Proof.
  destruct (swaps_single_token_rows_untouched (H := counting_backend)
              (swaps_layer 3 None) 5) as [Hragged Hdense].
  split.
  - apply Hragged.
    + reflexivity.
    + by repeat constructor.
  - apply Hdense; [reflexivity | reflexivity | simpl; lia].
Defined.

(** ** RandomSwaps: when a call raises *)

Lemma _swap_Ok `{RandomBackend} (self : RandomSwaps.t) (positions positions' : list nat)
    (op op' : random_op) :
  RandomSwaps._swap self positions op = Ok (positions', op') →
  positions' ≡ₚ positions.
Proof.
  intros Hswap. destruct (decide (positions = [])) as [->|Hne].
  - unfold RandomSwaps._swap in Hswap. simpl in Hswap.
    destruct (Z.to_nat (RandomSwaps.swaps self)); [|discriminate].
    by injection Hswap as <- <-.
  - destruct (_swap_Permutation self positions op (or_introl Hne))
      as (p & op1 & Hp & Hperm).
    rewrite Hp in Hswap. by injection Hswap as <- <-.
Qed.

Lemma map_fn__swap_Ok `{RandomBackend} (self : RandomSwaps.t)
    (positions shuffled : list (list nat)) (op op' : random_op) :
  map_fn (RandomSwaps._swap self) positions op = Ok (shuffled, op') →
  Forall2 (λ p p', p' ≡ₚ p) positions shuffled.
Proof.
  apply map_fn_Forall2. intros p s p' s'. apply _swap_Ok.
Qed.

Lemma gather_length {A} (params : list A) (indices : list nat) (values : list A) :
  gather params indices = Ok values → length values = length indices.
Proof.
  unfold gather. revert values.
  induction indices as [|i indices IH]; intros values Hgather; simpl in *.
  - by injection Hgather as <-.
  - apply bind_Ok in Hgather as (a & _ & Hgather).
    apply bind_Ok in Hgather as (rest & Hrest & Hgather).
    injection Hgather as <-. simpl. f_equal. by apply IH.
Qed.

Lemma from_row_splits_short {A B} (rows : list (list A)) (values : list B) :
  length values ≠ length (flat_values rows) →
  from_row_splits values (row_splits rows)
  = Raise (InvalidArgumentError
      "Arguments to _from_row_partition do not form a valid RaggedTensor").
Proof.
  intros Hlen. unfold from_row_splits, row_splits.
  rewrite last_splits_from, nondecreasing_splits_from. simpl.
  rewrite bool_decide_eq_false_2; [done|]. intros [= Heq]. lia.
Qed.

Lemma from_row_splits_lengths {A B} (rows : list (list A)) (values : list B)
    (parts : list (list B)) :
  from_row_splits values (row_splits rows) = Ok parts →
  Forall2 (λ part row, length part = length row) parts rows.
Proof.
  intros Hsplit.
  destruct (decide (length values = length (flat_values rows))) as [Hlen|Hlen];
    [|by rewrite from_row_splits_short in Hsplit].
  unfold from_row_splits, row_splits in Hsplit.
  destruct (_ && _); [|discriminate]. injection Hsplit as <-.
  change (rows_of_splits values 0 (splits_from 0 rows))
    with (with_flat_values rows values).
  rewrite with_flat_values_cut. apply cut_lengths. lia.
Qed.

Lemma length_kept (skip_masks : list bool) :
  true ∈ skip_masks →
  length (filter (λ b, b = true) (negb <$> skip_masks)) < length skip_masks.
Proof.
  assert (∀ m : list bool, length (filter (λ b, b = true) (negb <$> m)) ≤ length m)
    as Hle.
  { intros m. rewrite <-(length_fmap negb m). apply length_filter. }
  induction skip_masks as [|b m IH]; intros Hin; [by apply elem_of_nil in Hin|].
  rewrite fmap_cons. destruct b; cbn [negb].
  - rewrite filter_cons_False by done. specialize (Hle m). simpl. lia.
  - rewrite filter_cons_True by done.
    apply elem_of_cons in Hin as [?|Hin]; [done|]. specialize (IH Hin).
    simpl. lia.
Qed.

(** A ragged batch with a masked token: the gathered values are fewer than
    the row splits of the input require. *)
Lemma swaps_call_protected_raises `{RandomBackend} (self : RandomSwaps.t)
    (op : random_op) (rows : list (list Token)) (skip_masks : list bool) :
  RandomSwaps.skip_masks self (flat_values rows) = Some skip_masks →
  true ∈ skip_masks →
  raises (RandomSwaps.call self op (Ragged rows)).
Proof.
  intros Hmask Hin. rewrite swaps_call_Ragged.
  destruct (RandomSwaps.masked_by_py_function self); [done|].
  destruct (map_fn _ _ op) as [[shuffled op1]|e] eqn:Hmap; [|done].
  cbv beta iota delta [mbind result_bind].
  destruct (gather _ _) as [values|e] eqn:Hgather; [|done].
  rewrite from_row_splits_short; [done|].
  apply gather_length in Hgather. apply map_fn__swap_Ok in Hmap.
  assert (length (flat_values shuffled)
          = length (concat (eligible_positions self rows))) as Hshuffled.
  { unfold flat_values. clear -Hmap.
    induction Hmap as [|p p' ps ps' Hp _ IH]; [done|].
    simpl. rewrite !length_app, IH. by rewrite Hp. }
  pose proof (length_skip_masks _ _ _ Hmask) as Hlen.
  unfold eligible_positions in Hshuffled. rewrite Hmask in Hshuffled.
  rewrite !with_flat_values_cut, length_masked_cut in Hshuffled
    by (by rewrite ?length_seq, ?length_fmap).
  pose proof (length_kept _ Hin). lia.
Qed.

(** X4.  Whenever a skip mechanism of RandomSwaps marks a token of the
    input, the call raises, whatever is drawn: the protected positions are
    masked out before shuffling and never put back, so the gathered values
    are fewer than the row splits of the input require. *)
Theorem swaps_protected_token_always_raises `{RandomBackend} (self : RandomSwaps.t)
    (op : random_op) (inputs : Tensor) (skip_masks : list bool) :
  RandomSwaps.skip_masks self (flat_values (examples inputs)) = Some skip_masks →
  true ∈ skip_masks →
  raises (RandomSwaps.call self op inputs).
Proof.
  intros Hmask Hin.
  pose proof (swaps_call_protected_raises self op _ _ Hmask Hin) as Hragged.
  destruct (RandomSwaps.call self op inputs) as [[outputs op']|e] eqn:Hcall;
    [|done].
  apply swaps_call_Ok in Hcall. by rewrite Hcall in Hragged.
Qed.

Lemma swaps_protected_token_always_raises_witness :
  raises (RandomSwaps.call (H := counting_backend)
            (swaps_layer 0 (Some [TStr "Keras"; TStr "like"])) 0
            (Ragged [hey_i_like; keras_and_tensorflow])).
Proof.
  apply (swaps_protected_token_always_raises (H := counting_backend) _ _ _
           [false; false; true; true; false; false]).
  - reflexivity.
  - do 2 apply list_elem_of_further. apply list_elem_of_here.
Defined.

Lemma map_fn__swap_empty_row `{RandomBackend} (self : RandomSwaps.t)
    (rows : list (list Token)) (start : nat) (op : random_op) :
  (0 < RandomSwaps.swaps self)%Z → [] ∈ rows →
  map_fn (RandomSwaps._swap self) (ranges start rows) op
  = Raise (InvalidArgumentError "slice index out of bounds").
Proof.
  intros Hswaps. revert start op.
  induction rows as [|r rs IH]; intros start op Hin;
    [by apply elem_of_nil in Hin|].
  simpl. destruct r as [|tok r].
  - simpl. by rewrite _swap_empty.
  - apply elem_of_cons in Hin as [?|Hin]; [done|].
    destruct (_swap_Permutation self (seq start (length (tok :: r))) op)
      as (p & op1 & -> & _); [by left|].
    simpl. by rewrite IH.
Qed.

(** X5.  With [swaps] at least 1 and no skip mechanism, a ragged batch that
    has an empty row makes RandomSwaps raise an out-of-range error: [_swap]
    returns early only for a row of size one, and for the empty row reads
    entry 0 of an empty index tensor. *)
Theorem swaps_empty_row_always_raises `{RandomBackend} (self : RandomSwaps.t)
    (rows : list (list Token)) (op : random_op) :
  RandomSwaps.skip_masks self (flat_values rows) = None →
  (0 < RandomSwaps.swaps self)%Z → [] ∈ rows →
  RandomSwaps.call self op (Ragged rows)
  = Raise (InvalidArgumentError "slice index out of bounds").
Proof.
  intros [Htraced Hnone]%unmasked Hswaps Hin. specialize (Hnone rows).
  rewrite swaps_call_unfold, eligible_positions_unmasked by done.
  by rewrite map_fn__swap_empty_row.
Qed.

Lemma swaps_empty_row_always_raises_witness :
  RandomSwaps.call (H := counting_backend) (swaps_layer 3 None) 0
    (Ragged [hey_i_like; []; keras_and_tensorflow])
  = Raise (InvalidArgumentError "slice index out of bounds").
Proof.
  apply (swaps_empty_row_always_raises (H := counting_backend)).
  - reflexivity.
  - reflexivity.
  - apply list_elem_of_further, list_elem_of_here.
Defined.

(** X6.  Whenever a call of RandomSwaps returns, what it returns is rank 2
    and has the row lengths of the input: one row per input sequence, each
    with as many tokens as that sequence. *)
Theorem swaps_output_has_input_shape `{RandomBackend} (self : RandomSwaps.t)
    (op op' : random_op) (inputs outputs : Tensor) :
  RandomSwaps.call self op inputs = Ok (outputs, op') →
  rank outputs = 2
  ∧ Forall2 (λ output row, length output = length row)
      (examples outputs) (examples inputs).
Proof.
  intros Hcall. apply swaps_call_Ok in Hcall.
  rewrite swaps_call_Ragged in Hcall.
  destruct (RandomSwaps.masked_by_py_function self); [discriminate|].
  apply bind_Ok in Hcall as ([shuffled op1] & _ & Hcall).
  apply bind_Ok in Hcall as (values & _ & Hcall).
  apply bind_Ok in Hcall as (swapped & Hsplit & Hcall).
  injection Hcall as <- <-. split; [done|].
  by apply from_row_splits_lengths in Hsplit.
Qed.

Lemma swaps_output_has_input_shape_witness :
  rank (Ragged [[TStr "Hey"; TStr "like"; TStr "I"]]) = 2
  ∧ Forall2 (λ output row, length output = length row)
      (examples (Ragged [[TStr "Hey"; TStr "like"; TStr "I"]]))
      (examples (Vector hey_i_like)).
Proof.
  apply (swaps_output_has_input_shape (H := counting_backend)
           (swaps_layer 3 None) 0 3 (Vector hey_i_like)).
  reflexivity.
Defined.

(** ** RandomSwaps: exported configuration *)

(** X7.  For every RandomSwaps layer a constructor call has built,
    [from_config] of its [get_config] succeeds and builds a layer with the
    same [swaps], the same seed (also a seed the constructor drew itself)
    and the same generator, which exports the same configuration again; the
    rebuilt layer has no skip mechanism, whatever the original had. *)
Theorem swaps_config_round_trip (env env' : Env) (a : RandomSwaps.Args)
    (self : RandomSwaps.t) :
  RandomSwaps.__init__ env a = Ok self →
  ∃ restored,
    RandomSwaps.from_config env' (RandomSwaps.get_config self) = Ok restored
    ∧ RandomSwaps.swaps restored = RandomSwaps.swaps self
    ∧ RandomSwaps.seed restored = RandomSwaps.seed self
    ∧ RandomSwaps._generator restored = RandomSwaps._generator self
    ∧ RandomSwaps.skip_list restored = None
    ∧ RandomSwaps.skip_fn restored = None
    ∧ RandomSwaps.py_skip_fn restored = None
    ∧ RandomSwaps.get_config restored = RandomSwaps.get_config self.
Proof.
  rewrite swaps_from_config_get_config.
  unfold RandomSwaps.__init__ at 1. intros Hinit.
  apply bind_Ok in Hinit as (kwargs & Hdtype & Hinit).
  apply check_dtype_Ok in Hdtype as (v & d & Hv & Hd & Hok).
  destruct (bool_decide (_ < 0)%Z) eqn:Hswaps; [discriminate|].
  destruct (bool_decide (count_None _ < 2)) eqn:Hskip; [discriminate|].
  apply bind_Ok in Hinit as (table & _ & Hinit).
  injection Hinit as <-.
  unfold RandomSwaps.__init__. cbn [RandomSwaps.a_kwargs].
  assert (dtype_entry (Layer__init__ env "random_swaps"
                         (RandomSwaps.a_name a) kwargs)
          = VStr (dtype_name d)) as Hentry.
  { unfold dtype_entry, Layer__init__. simpl. rewrite Hv. simpl. by rewrite Hd. }
  cbn [RandomSwaps.base]. rewrite Hentry.
  rewrite (check_dtype_by_name _ d) by done.
  simpl. rewrite Hswaps.
  change (build_table None) with (Ok (@None (list Token))). simpl.
  eexists. split; [reflexivity|]. repeat (split; [reflexivity|]).
  unfold RandomSwaps.get_config, Layer_get_config.
  cbn [RandomSwaps.base RandomSwaps.swaps RandomSwaps.seed from_option id].
  rewrite Hentry. unfold dtype_entry, Layer__init__.
  cbn [name trainable dtype].
  destruct (base_kwargs_lookup (default (VBool true) (kwargs !! "trainable"))
              (VStr (dtype_name d))) as [-> ->].
  cbn [from_option id]. by rewrite as_dtype_name.
Qed.

Lemma swaps_config_round_trip_witness :
  ∃ restored,
    RandomSwaps.from_config other_env
      (RandomSwaps.get_config (swaps_layer 3 (Some [TStr "I"])))
    = Ok restored
    ∧ RandomSwaps.swaps restored = 3%Z
    ∧ RandomSwaps.seed restored = 42%Z
    ∧ RandomSwaps._generator restored = from_seed 42
    ∧ RandomSwaps.skip_list restored = None
    ∧ RandomSwaps.skip_fn restored = None
    ∧ RandomSwaps.py_skip_fn restored = None
    ∧ RandomSwaps.get_config restored
      = RandomSwaps.get_config (swaps_layer 3 (Some [TStr "I"])).
Proof.
  apply (swaps_config_round_trip test_env other_env
           (swaps_args 3 (Some [TStr "I"]))).
  reflexivity.
Defined.

(** ** RandomInsertion: one iteration *)
Section insertion_steps.
Context `{RandomBackend}.
Variable self : RandomInsertion.t.

Lemma pick_synonym_Ok (original_word synonym : Token) (g g' : Generator) :
  RandomInsertion.pick_synonym self original_word g = Ok (synonym, g') →
  (draws_from_list self = false ∧ g' = g
   ∧ ∃ fn, (RandomInsertion.insertion_fn self = Some fn
            ∨ RandomInsertion.insertion_py_fn self = Some fn)
           ∧ synonym = fn original_word)
  ∨ (draws_from_list self = true ∧ g' = (make_seeds g).2
     ∧ ∃ l, RandomInsertion.insertion_list self = Some l ∧ synonym ∈ l).
Proof.
  unfold RandomInsertion.pick_synonym, draws_from_list.
  destruct (RandomInsertion.insertion_fn self) as [fn|].
  { intros [= <- <-]. left. eauto 10. }
  destruct (RandomInsertion.insertion_list self) as [l|].
  - simpl. intros Hpick. right.
    apply bind_Ok in Hpick as (draw & _ & Hpick).
    apply bind_Ok in Hpick as (i & _ & Hpick).
    apply bind_Ok in Hpick as (tok & Htok & Hpick).
    injection Hpick as <- <-. repeat split; [].
    exists l. split; [done|].
    apply getitem_Ok in Htok. by eapply list_elem_of_lookup_2.
  - destruct (RandomInsertion.insertion_py_fn self) as [fn|]; [|done].
    intros [= <- <-]. left. eauto 10.
Qed.

(** What an iteration that goes through has done: nothing but use a seed,
    or put one token right after the drawn location. *)
Lemma insert_once_Ok (inputs out : list Token) (g g' : Generator) :
  RandomInsertion.insert_once self inputs g = Ok (out, g') →
  2 ≤ length inputs
  ∧ ((abandoned self inputs g = true ∧ out = inputs ∧ g' = (make_seeds g).2)
     ∨ (abandoned self inputs g = false
        ∧ ∃ original_word synonym,
            inputs !! drawn_prompt inputs g = Some original_word
            ∧ RandomInsertion.pick_synonym self original_word (make_seeds g).2
              = Ok (synonym, g')
            ∧ out = (take (drawn_location inputs g + 1) inputs ++ [synonym]
                       ++ drop (drawn_location inputs g + 1) inputs)%list)).
Proof.
  intros Hrun. destruct (decide (length inputs < 2)) as [Hshort|Hlong].
  { by rewrite insert_once_short in Hrun. }
  split; [lia|].
  destruct (insert_once_unfold self inputs g) as (w & Hw & Heq); [lia|].
  rewrite Heq in Hrun. unfold abandoned. rewrite Hw.
  destruct (RandomInsertion._check_skip self w).
  - left. by injection Hrun as <- <-.
  - right. split; [done|].
    apply bind_Ok in Hrun as ([synonym g1] & Hpick & Hrun).
    injection Hrun as <- <-. eauto.
Qed.

(** A relation between sequences that every iteration respects holds between
    what the loop is given and what it returns. *)
Lemma insert_loop_preserves (R : list Token → list Token → Prop) :
  (∀ l, R l l) → (∀ a b c, R a b → R b c → R a c) →
  (∀ inputs g out g',
     RandomInsertion.insert_once self inputs g = Ok (out, g') → R inputs out) →
  ∀ n inputs g out g',
    RandomInsertion.insert_loop self n inputs g = Ok (out, g') → R inputs out.
Proof.
  intros Hrefl Htrans Hstep. induction n as [|n IH]; intros inputs g out g' Hrun;
    simpl in Hrun.
  - injection Hrun as <- <-. apply Hrefl.
  - apply bind_Ok in Hrun as ([inputs1 g1] & Honce & Hrun).
    eapply Htrans; [by eapply Hstep | by eapply IH].
Qed.

Lemma Forall2_zip_fst {A B C} (R : A → C → Prop) (l : list A) (k : list B)
    (ys : list C) :
  length l = length k → Forall2 (λ x y, R x.1 y) (zip l k) ys → Forall2 R l ys.
Proof.
  revert k ys. induction l as [|a l IH]; intros [|b k] ys Hlen Hall;
    simpl in *; try lia.
  - inversion Hall. constructor.
  - inversion Hall; subst. constructor; [done|]. eapply IH; [|done]. lia.
Qed.

Lemma insertion_call_Vector (l : list Token) (outputs : Tensor) (g g' : Generator) :
  RandomInsertion.call self g (Vector l) = Ok (outputs, g') →
  ∃ row, outputs = Vector row
         ∧ RandomInsertion.call self g (Ragged [l]) = Ok (Ragged [row], g').
Proof.
  unfold RandomInsertion.call, normalize_rank.
  cbv beta iota delta [mbind result_bind]. intros Hcall.
  destruct (RandomInsertion.num_to_select self [l] g) as [nums g1].
  destruct (map_fn _ _ g1) as [[inserted g2]|]; [|done].
  destruct inserted as [|row [|]]; try discriminate.
  injection Hcall as <- <-. by exists row.
Qed.

(** Such a relation then holds, sequence by sequence, between the input and
    the output of a call. *)
Lemma insertion_call_preserves (R : list Token → list Token → Prop) :
  (∀ l, R l l) → (∀ a b c, R a b → R b c → R a c) →
  (∀ inputs g out g',
     RandomInsertion.insert_once self inputs g = Ok (out, g') → R inputs out) →
  ∀ g inputs outputs g',
    RandomInsertion.call self g inputs = Ok (outputs, g') →
    Forall2 R (examples inputs) (examples outputs).
Proof.
  intros Hrefl Htrans Hstep g inputs outputs g' Hcall.
  assert (∀ rows outs, RandomInsertion.call self g (Ragged rows)
                       = Ok (Ragged outs, g') → Forall2 R rows outs) as Hragged.
  { intros rows outs. unfold RandomInsertion.call, normalize_rank.
    cbv beta iota delta [mbind result_bind]. intros Hrun.
    pose proof (num_to_select_allotted self rows g) as Hnums.
    destruct (RandomInsertion.num_to_select self rows g) as [nums g1].
    destruct (map_fn _ _ g1) as [[inserted g2]|] eqn:Hmap; [|done].
    injection Hrun as <- <-. simpl in Hnums.
    apply (map_fn_Forall2 _ (λ x output, R x.1 output)) in Hmap.
    - eapply Forall2_zip_fst; [|done]. by eapply Forall2_length.
    - intros [row n] s out s' Hloop. simpl in *.
      by eapply insert_loop_preserves. }
  pose proof (insertion_call_Ok_static _ _ _ _ _ Hcall) as Hstatic.
  destruct inputs as [|l|rows| | |]; try discriminate.
  - apply insertion_call_Vector in Hcall as (row & -> & Hcall).
    by apply Hragged.
  - pose proof (insertion_call_Ragged_Ok _ _ _ _ _ Hcall) as Hout.
    rewrite Hout in Hcall. by apply Hragged.
Qed.
End insertion_steps.

(** ** RandomInsertion: what a call returns *)

(** X8.  Whenever [_insert] returns, the sequence has grown by exactly the
    number of iterations that were not abandoned, which is at most
    [num_to_select]. *)
Theorem insertion_grows_by_non_abandoned `{RandomBackend} (self : RandomInsertion.t)
    (inputs out : list Token) (n : nat) (g g' : Generator) :
  RandomInsertion._insert self (inputs, n) g = Ok (out, g') →
  length out = length inputs + non_abandoned self n inputs g
  ∧ non_abandoned self n inputs g ≤ n.
Proof. apply insert_loop_length. Qed.

Lemma insertion_grows_by_non_abandoned_witness :
  let self := insertion_layer (2 # 5) (Some 2%Z) (Some [TStr "wind"])
                (Some [TStr "I"]) in
  length [TStr "Hey"; TStr "wind"; TStr "I"; TStr "like"]
  = length hey_i_like + non_abandoned (H := counting_backend) self 3 hey_i_like
                          (from_seed 43)
  ∧ non_abandoned (H := counting_backend) self 3 hey_i_like (from_seed 43) ≤ 3.
Proof.
  apply (insertion_grows_by_non_abandoned (H := counting_backend) _ _ _ _ _
           {| key := 43; counter := 4 |}).
  reflexivity.
Defined.

Lemma insert_loop_seeds `{RandomBackend} (self : RandomInsertion.t) (n : nat)
    (inputs out : list Token) (g g' : Generator) :
  RandomInsertion.insert_loop self n inputs g = Ok (out, g') →
  key g' = key g
  ∧ counter g' = counter g + n
                 + (if draws_from_list self then non_abandoned self n inputs g
                    else 0).
Proof.
  revert inputs g. induction n as [|n IH]; intros inputs g Hrun; simpl in *.
  - injection Hrun as <- <-. destruct (draws_from_list self); lia.
  - apply bind_Ok in Hrun as ([inputs1 g1] & Honce & Hrun).
    rewrite Honce. destruct (IH _ _ Hrun) as [Hkey Hcounter].
    apply insert_once_Ok in Honce
      as [_ [(-> & -> & ->) | (-> & w & syn & _ & Hpick & ->)]].
    + simpl in *. split; [done|]. destruct (draws_from_list self); lia.
    + apply pick_synonym_Ok in Hpick
        as [(Hdraws & -> & _) | (Hdraws & -> & _)];
        rewrite Hdraws in *; simpl in *; split; try done; lia.
Qed.

(** X9.  Whenever [_insert] returns, the generator has kept its key and has
    given out one seed for every iteration, abandoned or not, and one more
    for every token taken from [insertion_list]. *)
Theorem insertion_seeds_used `{RandomBackend} (self : RandomInsertion.t)
    (inputs out : list Token) (n : nat) (g g' : Generator) :
  RandomInsertion._insert self (inputs, n) g = Ok (out, g') →
  key g' = key g
  ∧ counter g' = counter g + n
                 + (if draws_from_list self then non_abandoned self n inputs g
                    else 0).
Proof. apply insert_loop_seeds. Qed.

Lemma insertion_seeds_used_witness :
  let self := insertion_layer (2 # 5) (Some 2%Z) (Some [TStr "wind"])
                (Some [TStr "I"]) in
  key {| key := 43; counter := 4 |} = key (from_seed 43)
  ∧ counter {| key := 43; counter := 4 |}
    = counter (from_seed 43) + 3
      + (if draws_from_list self
         then non_abandoned (H := counting_backend) self 3 hey_i_like (from_seed 43)
         else 0).
Proof.
  apply (insertion_seeds_used (H := counting_backend) _ _
           [TStr "Hey"; TStr "wind"; TStr "I"; TStr "like"]).
  reflexivity.
Defined.

(** X10.  Whenever a call of RandomInsertion returns, every output sequence
    is at least as long as its input sequence, at most twice as long, and at
    most [max_insertions] longer when that is set; an empty sequence stays
    empty. *)
Theorem insertion_output_lengths `{RandomBackend} (self : RandomInsertion.t)
    (g g' : Generator) (inputs outputs : Tensor) :
  RandomInsertion.call self g inputs = Ok (outputs, g') →
  Forall2 (λ row output,
             length row ≤ length output
             ∧ length output ≤ length row + length row
             ∧ ∀ m, RandomInsertion.max_insertions self = Some m →
                    length output ≤ length row + Z.to_nat m)
    (examples inputs) (examples outputs).
Proof.
  intros Hcall. pose proof (insertion_call_Ok_static _ _ _ _ _ Hcall) as Hstatic.
  destruct inputs as [|l|rows| | |]; try discriminate.
  - apply insertion_call_Vector in Hcall as (row & -> & Hcall).
    by apply insertion_call_lengths in Hcall.
  - pose proof (insertion_call_Ragged_Ok _ _ _ _ _ Hcall) as Hout.
    rewrite Hout in Hcall. by apply insertion_call_lengths in Hcall.
Qed.

Lemma insertion_output_lengths_witness :
  let self := insertion_layer 1 (Some 2%Z) (Some [TStr "wind"]) (Some [TStr "I"]) in
  Forall2 (λ row output,
             length row ≤ length output
             ∧ length output ≤ length row + length row
             ∧ ∀ m, RandomInsertion.max_insertions self = Some m →
                    length output ≤ length row + Z.to_nat m)
    (examples (Ragged [hey_i_like; []; keras_and_tensorflow]))
    (examples (Ragged
       [[TStr "Hey"; TStr "wind"; TStr "I"; TStr "like"]; [];
        [TStr "Keras"; TStr "and"; TStr "wind"; TStr "Tensorflow"; TStr "wind"]])).
Proof.
  apply (insertion_output_lengths (H := counting_backend) _ (from_seed 42)
           {| key := 42; counter := 8 |}).
  reflexivity.
Defined.

(** X11.  Insertion only adds: whenever a call returns, every input sequence
    is a subsequence of its output sequence, so no token is dropped and the
    tokens that were there keep their order. *)
Theorem insertion_keeps_input_as_subsequence `{RandomBackend}
    (self : RandomInsertion.t) (g g' : Generator) (inputs outputs : Tensor) :
  RandomInsertion.call self g inputs = Ok (outputs, g') →
  Forall2 sublist (examples inputs) (examples outputs).
Proof.
  apply insertion_call_preserves.
  - done.
  - intros a b c Hab Hbc. by etrans.
  - intros row g0 out g1 Honce.
    apply insert_once_Ok in Honce as [_ [(_ & -> & _) | (_ & w & syn & _ & _ & ->)]];
      [done|].
    rewrite <-(take_drop (drawn_location row g0 + 1) row) at 1.
    apply sublist_app; [done|]. by apply sublist_cons.
Qed.

Lemma insertion_keeps_input_as_subsequence_witness :
  Forall2 sublist (examples (Vector hey_i_like))
    (examples (Vector [TStr "Hey"; TStr "wind"; TStr "I"; TStr "like"])).
Proof.
  apply (insertion_keeps_input_as_subsequence (H := counting_backend)
           (insertion_layer 1 (Some 2%Z) (Some [TStr "wind"]) (Some [TStr "I"]))
           (from_seed 42) {| key := 42; counter := 4 |}).
  reflexivity.
Defined.

(** X12.  A token is always put after an existing one: whenever a call
    returns, every output sequence starts with the token its input sequence
    started with. *)
Theorem insertion_keeps_first_token `{RandomBackend} (self : RandomInsertion.t)
    (g g' : Generator) (inputs outputs : Tensor) :
  RandomInsertion.call self g inputs = Ok (outputs, g') →
  Forall2 (λ row output, head output = head row)
    (examples inputs) (examples outputs).
Proof.
  apply insertion_call_preserves.
  - done.
  - intros a b c Hab Hbc. congruence.
  - intros row g0 out g1 Honce.
    apply insert_once_Ok in Honce
      as [Hlen [(_ & -> & _) | (_ & w & syn & _ & _ & ->)]]; [done|].
    destruct row as [|tok row]; [simpl in Hlen; lia|].
    by rewrite Nat.add_1_r.
Qed.

Lemma insertion_keeps_first_token_witness :
  Forall2 (λ row output, head output = head row)
    (examples (Vector hey_i_like))
    (examples (Vector [TStr "Hey"; TStr "wind"; TStr "I"; TStr "like"])).
Proof.
  apply (insertion_keeps_first_token (H := counting_backend)
           (insertion_layer 1 (Some 2%Z) (Some [TStr "wind"]) (Some [TStr "I"]))
           (from_seed 42) {| key := 42; counter := 4 |}).
  reflexivity.
Defined.

(** X13.  On string tokens: with an insertion list of strings and no
    insertion function, whenever a call on sequences of strings returns,
    every token of an output sequence is a token of its input sequence or
    an entry of [insertion_list].  (An integer id that is inserted is cast
    to the integer type of the sequence, which the unbounded [TInt] does
    not follow; strings are spliced in as they are.) *)
Theorem insertion_tokens_from_list `{RandomBackend} (self : RandomInsertion.t)
    (insertion_list : list Token) (g g' : Generator) (inputs outputs : Tensor) :
  RandomInsertion.insertion_fn self = None →
  RandomInsertion.insertion_list self = Some insertion_list →
  forallb is_string insertion_list = true →
  Forall (λ row, forallb is_string row = true) (examples inputs) →
  RandomInsertion.call self g inputs = Ok (outputs, g') →
  Forall2 (λ row output, ∀ token, token ∈ output →
                                  token ∈ row ∨ token ∈ insertion_list)
    (examples inputs) (examples outputs).
Proof.
  intros Hfn Hlist _ _. apply insertion_call_preserves.
  - intros l token. by left.
  - intros a b c Hab Hbc token Hc.
    destruct (Hbc token Hc) as [Hb|?]; [|by right]. by apply Hab.
  - intros row g0 out g1 Honce token.
    apply insert_once_Ok in Honce
      as [Hlen [(_ & -> & _) | (_ & w & syn & _ & Hpick & ->)]]; [by left|].
    apply pick_synonym_Ok in Hpick as [(Hdraws & _) | (_ & _ & l & Hl & Hsyn)].
    { unfold draws_from_list in Hdraws. by rewrite Hfn, Hlist in Hdraws. }
    rewrite Hlist in Hl. injection Hl as <-.
    rewrite !elem_of_app, elem_of_cons, elem_of_nil.
    intros [Hin|[[->|[]]|Hin]].
    + left. eapply elem_of_sublist; [exact Hin | apply sublist_take].
    + by right.
    + left. eapply elem_of_sublist; [exact Hin | apply sublist_drop].
Qed.

Lemma insertion_tokens_from_list_witness :
  Forall2 (λ row output, ∀ token, token ∈ output →
                                  token ∈ row ∨ token ∈ [TStr "wind"])
    (examples (Vector hey_i_like))
    (examples (Vector [TStr "Hey"; TStr "wind"; TStr "I"; TStr "like"])).
Proof.
  apply (insertion_tokens_from_list (H := counting_backend)
           (insertion_layer 1 (Some 2%Z) (Some [TStr "wind"]) (Some [TStr "I"]))
           [TStr "wind"] (from_seed 42) {| key := 42; counter := 4 |});
    try reflexivity.
  by repeat constructor.
Defined.

Lemma map_fn__insert_none `{RandomBackend} (self : RandomInsertion.t)
    (rows : list (list Token)) (counts : list nat) (g : Generator) :
  length counts = length rows →
  map_fn (RandomInsertion._insert self)
    (zip rows ((λ n, Z.to_nat (Z.of_nat n `min` 0)) <$> counts)) g
  = Ok (rows, g).
Proof.
  revert counts. induction rows as [|row rows IH]; intros [|n counts] Hlen;
    simpl in *; try done.
  replace (Z.to_nat (Z.of_nat n `min` 0)) with 0 by lia. simpl.
  rewrite IH by lia. done.
Qed.

(** X14.  With [max_insertions = 0] nothing is inserted: whenever a call of
    RandomInsertion returns, it returns its input, rank 1 or rank 2, as it
    is, and the generator has given out the one seed of the binomial
    draw. *)
Theorem insertion_max_zero_returns_input `{RandomBackend} (self : RandomInsertion.t)
    (g g' : Generator) (inputs outputs : Tensor) :
  RandomInsertion.max_insertions self = Some 0%Z →
  RandomInsertion.call self g inputs = Ok (outputs, g') →
  outputs = inputs ∧ g' = {| key := key g; counter := S (counter g) |}.
Proof.
  intros Hmax Hcall.
  pose proof (insertion_call_Ok_static _ _ _ _ _ Hcall) as Hstatic.
  destruct inputs as [|l|rows| | |]; try discriminate.
  - revert Hcall.
    unfold RandomInsertion.call, RandomInsertion.num_to_select.
    rewrite Hmax. simpl.
    match goal with
    | |- context [Z.to_nat ?z] => replace (Z.to_nat z) with 0 by lia
    end.
    simpl. by intros [= <- <-].
  - revert Hcall.
    unfold RandomInsertion.call, RandomInsertion.num_to_select.
    rewrite Hmax. simpl.
    rewrite map_fn__insert_none by (by rewrite length_imap, length_fmap).
    simpl. by intros [= <- <-].
Qed.

Lemma insertion_max_zero_returns_input_witness :
  Ragged [hey_i_like; keras_and_tensorflow]
  = Ragged [hey_i_like; keras_and_tensorflow]
  ∧ {| key := 42; counter := 1 |}
    = {| key := key (from_seed 42); counter := S (counter (from_seed 42)) |}.
Proof.
  apply (insertion_max_zero_returns_input (H := counting_backend)
           (insertion_layer 1 (Some 0%Z) (Some [TStr "wind"]) None)).
  - reflexivity.
  - reflexivity.
Defined.

(** X15.  On a sequence of two or more tokens that are all skip-protected,
    every iteration of [_insert] is abandoned: the sequence comes back as it
    is, and [num_to_select] seeds are used up. *)
Theorem insertion_all_protected_unchanged `{RandomBackend} (self : RandomInsertion.t)
    (inputs : list Token) (n : nat) (g : Generator) :
  Forall (λ token, RandomInsertion._check_skip self token = true) inputs →
  2 ≤ length inputs →
  RandomInsertion._insert self (inputs, n) g
  = Ok (inputs, {| key := key g; counter := counter g + n |}).
Proof.
  intros Hall Hlen. simpl. revert g. induction n as [|n IH]; intros g; simpl.
  - destruct g. simpl. do 2 f_equal. f_equal. lia.
  - rewrite insert_once_abandoned; [|done|].
    + simpl. rewrite IH. simpl. do 2 f_equal. f_equal. lia.
    + unfold abandoned.
      destruct (lookup_lt_is_Some_2 inputs (drawn_prompt inputs g))
        as [w Hw]; [apply Nat.mod_upper_bound; lia|].
      rewrite Hw. eapply Forall_lookup_1 in Hall; [|exact Hw]. done.
Qed.

Lemma insertion_all_protected_unchanged_witness :
  RandomInsertion._insert (H := counting_backend)
    (insertion_layer 1 None (Some [TStr "wind"])
       (Some [TStr "Hey"; TStr "I"; TStr "like"]))
    (hey_i_like, 3) (from_seed 42)
  = Ok (hey_i_like, {| key := 42; counter := 0 + 3 |}).
Proof.
  apply (insertion_all_protected_unchanged (H := counting_backend)).
  - by repeat constructor.
  - simpl. lia.
Defined.

Lemma map_fn_raises_at {A B S} (fn : A → S → result (B * S)) (xs : list A)
    (i : nat) (x : A) (s : S) :
  xs !! i = Some x → (∀ s, raises (fn x s)) → raises (map_fn fn xs s).
Proof.
  intros Hx Hfn. revert i s Hx.
  induction xs as [|y xs IH]; intros [|i] s Hx; simplify_eq/=.
  - specialize (Hfn s). by destruct (fn x s).
  - destruct (fn y s) as [[b s1]|]; [|done]. simpl.
    specialize (IH i s1 Hx). by destruct (map_fn fn xs s1) as [[??]|].
Qed.

(** X16.  With [rate = 1] and [max_insertions] unset or positive, any input
    that holds a sequence of exactly one token makes the call raise: one
    insertion is selected for it, and [_insert] reads the second entry of an
    index tensor that has one. *)
Theorem insertion_single_token_always_raises `{RandomBackend}
    (self : RandomInsertion.t) (g : Generator) (inputs : Tensor) (i : nat)
    (token : Token) :
  RandomInsertion.rate self = 1%Q →
  (∀ m, RandomInsertion.max_insertions self = Some m → (0 < m)%Z) →
  examples inputs !! i = Some [token] →
  raises (RandomInsertion.call self g inputs).
Proof.
  intros Hrate Hmax Hrow.
  assert (∀ rows, rows !! i = Some [token] →
                  raises (map_fn (RandomInsertion._insert self)
                            (zip rows (RandomInsertion.num_to_select self rows g).1)
                            (RandomInsertion.num_to_select self rows g).2))
    as Hmap.
  { intros rows Hi. apply (map_fn_raises_at _ _ i ([token], 1)).
    - apply lookup_zip_with_Some. exists [token], 1. split; [done|].
      split; [done|]. unfold RandomInsertion.num_to_select. simpl.
      rewrite Hrate.
      destruct (RandomInsertion.max_insertions self) as [m|] eqn:Hm.
      + rewrite list_lookup_fmap, list_lookup_imap, list_lookup_fmap, Hi. simpl.
        rewrite binomial_sample_certain. specialize (Hmax m eq_refl).
        f_equal. lia.
      + rewrite list_lookup_imap, list_lookup_fmap, Hi. simpl.
        by rewrite binomial_sample_certain.
    - intros s. done. }
  destruct (static_row_length inputs) as [n|] eqn:Hstatic.
  { pose proof (insertion_call_static self inputs g n Hstatic) as Hraise.
    by destruct (RandomInsertion.call self g inputs) as [|[]]. }
  unfold RandomInsertion.call, normalize_rank.
  destruct inputs as [|l|rows| | |]; try done; simpl in Hrow;
    cbv beta iota zeta delta [mbind result_bind RandomInsertion.trace__insert
                              static_row_length].
  - specialize (Hmap [l] Hrow).
    destruct (RandomInsertion.num_to_select self [l] g) as [nums g1].
    simpl in Hmap. by destruct (map_fn _ _ g1) as [[??]|].
  - specialize (Hmap rows Hrow).
    destruct (RandomInsertion.num_to_select self rows g) as [nums g1].
    simpl in Hmap. by destruct (map_fn _ _ g1) as [[??]|].
Qed.

Lemma insertion_single_token_always_raises_witness :
  raises (RandomInsertion.call (H := counting_backend)
            (insertion_layer 1 (Some 2%Z) (Some [TStr "wind"]) None)
            (from_seed 42)
            (Ragged [hey_i_like; [TStr "Keras"]])).
Proof.
  apply (insertion_single_token_always_raises (H := counting_backend)
           _ _ _ 1 (TStr "Keras")).
  - reflexivity.
  - intros m [= <-]. lia.
  - reflexivity.
Defined.

(** ** Constructed layers *)

(** What a successful construction of RandomInsertion has checked and
    stored. *)
Lemma insertion_init_Ok (env : Env) (a : RandomInsertion.Args)
    (self : RandomInsertion.t) (g : Generator) :
  RandomInsertion.__init__ env a = Ok (self, g) →
  insertion_args_valid a
  ∧ RandomInsertion.rate self = RandomInsertion.a_rate a
  ∧ RandomInsertion.max_insertions self = RandomInsertion.a_max_insertions a
  ∧ RandomInsertion.insertion_list self = RandomInsertion.a_insertion_list a
  ∧ RandomInsertion.insertion_fn self = RandomInsertion.a_insertion_fn a
  ∧ RandomInsertion.insertion_py_fn self = RandomInsertion.a_insertion_py_fn a
  ∧ RandomInsertion.skip_list self = RandomInsertion.a_skip_list a
  ∧ RandomInsertion.skip_fn self = RandomInsertion.a_skip_fn a
  ∧ RandomInsertion.skip_py_fn self = RandomInsertion.a_skip_py_fn a
  ∧ RandomInsertion.StaticHashTable self
    = (if truthy (RandomInsertion.a_skip_list a)
       then RandomInsertion.a_skip_list a else None)
  ∧ g = from_seed (RandomInsertion.seed self).
Proof.
  unfold RandomInsertion.__init__. intros Hinit.
  apply bind_Ok in Hinit as (kwargs & _ & Hinit).
  destruct (from_option _ false _) eqn:Hmax; [discriminate|].
  destruct (_ || _) eqn:Hrate; [discriminate|].
  destruct (bool_decide (count_None _ < 2)) eqn:Hskip; [discriminate|].
  destruct (bool_decide (count_None _ ≠ 2)) eqn:Hins; [discriminate|].
  apply bind_Ok in Hinit as (table & [_ ->]%build_table_Ok & Hinit).
  injection Hinit as <- <-. simpl.
  pose proof (proj1 (negative_max_insertions _) Hmax) as Hmax'.
  pose proof (proj1 (rate_out_of_range _) Hrate) as Hrate'.
  apply bool_decide_eq_false in Hskip. apply bool_decide_eq_false in Hins.
  rewrite count_None_supplied in Hskip. rewrite count_None_supplied in Hins.
  assert (num_supplied (RandomInsertion.a_skip_list a)
            (RandomInsertion.a_skip_fn a) (RandomInsertion.a_skip_py_fn a) ≤ 3)
    by (unfold num_supplied; repeat case_bool_decide; lia).
  assert (num_supplied (RandomInsertion.a_insertion_list a)
            (RandomInsertion.a_insertion_fn a)
            (RandomInsertion.a_insertion_py_fn a) ≤ 3)
    by (unfold num_supplied; repeat case_bool_decide; lia).
  repeat split; try done; try tauto; lia.
Qed.

Lemma swaps_init_Ok (env : Env) (a : RandomSwaps.Args) (self : RandomSwaps.t) :
  RandomSwaps.__init__ env a = Ok self →
  swaps_args_valid a
  ∧ RandomSwaps.swaps self = RandomSwaps.a_swaps a
  ∧ RandomSwaps.skip_list self = RandomSwaps.a_skip_list a
  ∧ RandomSwaps.skip_fn self = RandomSwaps.a_skip_fn a
  ∧ RandomSwaps.py_skip_fn self = RandomSwaps.a_py_skip_fn a
  ∧ RandomSwaps.StaticHashTable self
    = (if truthy (RandomSwaps.a_skip_list a)
       then RandomSwaps.a_skip_list a else None).
Proof.
  unfold RandomSwaps.__init__. intros Hinit.
  apply bind_Ok in Hinit as (kwargs & _ & Hinit).
  destruct (bool_decide (_ < 0)%Z) eqn:Hswaps; [discriminate|].
  destruct (bool_decide (count_None _ < 2)) eqn:Hskip; [discriminate|].
  apply bind_Ok in Hinit as (table & [_ ->]%build_table_Ok & Hinit).
  injection Hinit as <-. simpl.
  apply bool_decide_eq_false in Hswaps. apply bool_decide_eq_false in Hskip.
  rewrite count_None_supplied in Hskip.
  assert (num_supplied (RandomSwaps.a_skip_list a)
            (RandomSwaps.a_skip_fn a) (RandomSwaps.a_py_skip_fn a) ≤ 3)
    by (unfold num_supplied; repeat case_bool_decide; lia).
  repeat split; try done; lia.
Qed.

(** X17.  The constructor of RandomInsertion accepts an empty
    [insertion_list], and the layer it builds never inserts a token:
    whenever one of its calls returns, the output sequences are the input
    sequences.  (A call in which an iteration is not abandoned does not
    return.) *)
Theorem insertion_empty_list_never_inserts `{RandomBackend} (env : Env)
    (a : RandomInsertion.Args) :
  succeeds (check_dtype (RandomInsertion.a_kwargs a)) →
  insertion_args_valid a →
  string_keys (RandomInsertion.a_skip_list a) →
  RandomInsertion.a_insertion_list a = Some [] →
  ∃ self g,
    RandomInsertion.__init__ env a = Ok (self, g)
    ∧ ∀ g0 inputs outputs g',
        RandomInsertion.call self g0 inputs = Ok (outputs, g') →
        examples outputs = examples inputs.
Proof.
  intros Hdtype Hvalid Hkeys Hlist.
  pose proof (insertion_init_valid env a Hdtype Hvalid Hkeys) as Hinit.
  destruct (RandomInsertion.__init__ env a) as [[self g]|] eqn:Hself; [|done].
  exists self, g. split; [done|]. intros g0 inputs outputs g' Hcall.
  apply insertion_init_Ok in Hself as (_ & _ & _ & Hl & Hfn & Hpy & _).
  destruct Hvalid as (_ & _ & _ & Hone). rewrite Hlist in Hone, Hl.
  assert (RandomInsertion.insertion_fn self = None
          ∧ RandomInsertion.insertion_py_fn self = None) as [Hnofn Hnopy].
  { rewrite Hfn, Hpy. unfold num_supplied in Hone.
    destruct (RandomInsertion.a_insertion_fn a),
      (RandomInsertion.a_insertion_py_fn a); try done;
      simpl in Hone; repeat case_bool_decide; try lia;
      by match goal with Hn : ¬ is_Some (Some _) |- _ => destruct Hn end. }
  symmetry. apply list_eq_Forall2.
  revert Hcall. apply insertion_call_preserves.
  - done.
  - congruence.
  - intros row g1 out g2 Honce.
    apply insert_once_Ok in Honce
      as [_ [(_ & -> & _) | (_ & w & syn & _ & Hpick & _)]]; [done|].
    apply pick_synonym_Ok in Hpick
      as [(_ & _ & fn & [Hsome|Hsome] & _) | (_ & _ & l & Hsome & Hsyn)].
    + by rewrite Hnofn in Hsome.
    + by rewrite Hnopy in Hsome.
    + rewrite Hl in Hsome. injection Hsome as <-. by apply elem_of_nil in Hsyn.
Qed.

Lemma insertion_empty_list_never_inserts_witness :
  ∃ self g,
    RandomInsertion.__init__ test_env (insertion_args 1 None (Some []) None)
    = Ok (self, g)
    ∧ ∀ g0 inputs outputs g',
        RandomInsertion.call (H := counting_backend) self g0 inputs
        = Ok (outputs, g') →
        examples outputs = examples inputs.
Proof.
  apply (insertion_empty_list_never_inserts (H := counting_backend)).
  - exact I.
  - split; [|split; [|split]].
    + intros m [=].
    + split; vm_compute; discriminate.
    + vm_compute. lia.
    + reflexivity.
  - reflexivity.
  - reflexivity.
Defined.

(** X18.  Whenever a call of RandomInsertion returns, the output has the
    rank of the input, rank 1 for a rank-1 input, and holds as many
    sequences. *)
Theorem insertion_output_keeps_rank `{RandomBackend} (self : RandomInsertion.t)
    (g g' : Generator) (inputs outputs : Tensor) :
  RandomInsertion.call self g inputs = Ok (outputs, g') →
  rank outputs = rank inputs
  ∧ length (examples outputs) = length (examples inputs).
Proof. apply insertion_call_rank. Qed.

Lemma insertion_output_keeps_rank_witness :
  rank (Vector [TStr "Hey"; TStr "wind"; TStr "I"; TStr "like"])
  = rank (Vector hey_i_like)
  ∧ length (examples (Vector [TStr "Hey"; TStr "wind"; TStr "I"; TStr "like"]))
    = length (examples (Vector hey_i_like)).
Proof.
  apply (insertion_output_keeps_rank (H := counting_backend)
           (insertion_layer 1 (Some 2%Z) (Some [TStr "wind"]) (Some [TStr "I"]))
           (from_seed 42) {| key := 42; counter := 4 |}).
  reflexivity.
Defined.

(** X19.  A RandomInsertion layer rebuilt by [from_config] from the
    [get_config] of a constructed layer starts from the same generator and,
    from any generator state, returns on every input what the original
    returns. *)
Theorem insertion_restored_layer_same_calls `{RandomBackend} (env env' : Env)
    (a : RandomInsertion.Args) (self : RandomInsertion.t) (g : Generator) :
  RandomInsertion.__init__ env a = Ok (self, g) →
  ∃ restored,
    RandomInsertion.from_config env' (RandomInsertion.get_config self)
    = Ok (restored, g)
    ∧ ∀ g0 inputs, RandomInsertion.call restored g0 inputs
                   = RandomInsertion.call self g0 inputs.
Proof.
  intros Hinit.
  destruct (insertion_config_round_trip env env' a self g Hinit)
    as (restored & Hrestored & _).
  exists restored. split; [done|]. intros g0 inputs.
  rewrite insertion_from_config_get_config in Hrestored.
  apply insertion_init_Ok in Hrestored
    as (_ & Hr1 & Hr2 & Hr3 & Hr4 & Hr5 & Hr6 & Hr7 & Hr8 & Hr9 & _).
  apply insertion_init_Ok in Hinit
    as (_ & _ & _ & _ & _ & _ & Hs6 & _ & _ & Hs9 & _).
  simpl in *. rewrite <- Hs6 in Hs9.
  rewrite (insertion_call_base restored (RandomInsertion.base self)).
  rewrite Hr1, Hr2, Hr3, Hr4, Hr5, Hr6, Hr7, Hr8, Hr9, <- Hs9.
  by destruct self.
Qed.

Lemma insertion_restored_layer_same_calls_witness :
  let self := insertion_layer (2 # 5) (Some 2%Z) (Some [TStr "wind"]) None in
  ∃ restored,
    RandomInsertion.from_config other_env (RandomInsertion.get_config self)
    = Ok (restored, from_seed 42)
    ∧ ∀ g0 inputs,
        RandomInsertion.call (H := counting_backend) restored g0 inputs
        = RandomInsertion.call (H := counting_backend) self g0 inputs.
Proof.
  apply (insertion_restored_layer_same_calls (H := counting_backend)
           test_env other_env
           (insertion_args (2 # 5) (Some 2%Z) (Some [TStr "wind"]) None)).
  reflexivity.
Defined.


(** X20.  In a constructed RandomInsertion layer a token is skip-protected
    exactly when the skip argument that was supplied marks it: it is in
    [skip_list], or [skip_fn] or [skip_py_fn] holds of it.  An empty
    [skip_list] protects nothing. *)
Theorem insertion_protected_iff_marked (env : Env) (a : RandomInsertion.Args)
    (self : RandomInsertion.t) (g : Generator) (token : Token) :
  RandomInsertion.__init__ env a = Ok (self, g) →
  RandomInsertion._check_skip self token
  = marked (RandomInsertion.a_skip_list a) (RandomInsertion.a_skip_fn a)
      (RandomInsertion.a_skip_py_fn a) token.
Proof.
  intros Hinit.
  apply insertion_init_Ok in Hinit
    as ((_ & _ & Hone & _) & _ & _ & _ & _ & _ & Hl & Hfn & Hpy & Htable & _).
  unfold RandomInsertion._check_skip, marked. rewrite Hl, Hfn, Hpy, Htable.
  destruct (RandomInsertion.a_skip_list a) as [[|x l]|],
    (RandomInsertion.a_skip_fn a) as [fn|],
    (RandomInsertion.a_skip_py_fn a) as [py|];
    try (exfalso; vm_compute in Hone; lia); simpl;
    rewrite ?orb_false_r; done.
Qed.

Lemma insertion_protected_iff_marked_witness :
  RandomInsertion._check_skip
    (insertion_layer (2 # 5) (Some 2%Z) (Some [TStr "wind"]) (Some [TStr "I"]))
    (TStr "I")
  = marked (Some [TStr "I"]) None None (TStr "I").
Proof.
  apply (insertion_protected_iff_marked test_env
           (insertion_args (2 # 5) (Some 2%Z) (Some [TStr "wind"])
              (Some [TStr "I"]))
           _ (from_seed 42)).
  reflexivity.
Defined.

(** X21.  For a constructed RandomSwaps layer, no token of a batch is
    skip-protected exactly when the skip argument that was supplied marks
    none of the batch's tokens; so the calls that can return are those on
    inputs the skip mechanism does not apply to. *)
Theorem swaps_none_protected_iff_unmarked (env : Env) (a : RandomSwaps.Args)
    (self : RandomSwaps.t) (rows : list (list Token)) :
  RandomSwaps.__init__ env a = Ok self →
  none_protected self rows
  ↔ Forall (λ token, marked (RandomSwaps.a_skip_list a) (RandomSwaps.a_skip_fn a)
                       (RandomSwaps.a_py_skip_fn a) token = false)
      (flat_values rows).
Proof.
  intros Hinit.
  apply swaps_init_Ok in Hinit as ((_ & Hone) & _ & Hl & Hfn & Hpy & Htable).
  unfold none_protected, RandomSwaps.skip_masks, marked.
  rewrite Hl, Hfn, Hpy, Htable.
  destruct (RandomSwaps.a_skip_list a) as [[|x l]|],
    (RandomSwaps.a_skip_fn a) as [fn|],
    (RandomSwaps.a_py_skip_fn a) as [py|];
    try (exfalso; vm_compute in Hone; lia); simpl.
  all: split.
  all: try (intros Hnone; specialize (Hnone _ eq_refl);
            rewrite Forall_fmap in Hnone;
            eapply Forall_impl; [exact Hnone|];
            intros token Htoken; simpl in *;
            by rewrite ?orb_false_r, ?Htoken).
  all: try (intros Hall skip_masks [= <-]; rewrite Forall_fmap;
            eapply Forall_impl; [exact Hall|];
            intros token Htoken; simpl in *;
            by rewrite ?orb_false_r in Htoken).
  all: try (intros _ skip_masks [=]).
  all: try (intros _; apply Forall_forall; intros token _;
            rewrite ?orb_false_r; try done;
            apply bool_decide_eq_false_2, not_elem_of_nil).
Qed.

Lemma swaps_none_protected_iff_unmarked_witness :
  none_protected (swaps_layer 3 (Some [TStr "Keras"])) [hey_i_like]
  ↔ Forall (λ token, marked (Some [TStr "Keras"]) None None token = false)
      (flat_values [hey_i_like]).
Proof.
  apply (swaps_none_protected_iff_unmarked test_env
           (swaps_args 3 (Some [TStr "Keras"]))).
  reflexivity.
Defined.

Lemma map_fn_state {A B S} (fn : A → S → result (B * S)) (P : S → S → Prop)
    (xs : list A) (s : S) (ys : list B) (s' : S) :
  (∀ s, P s s) → (∀ s1 s2 s3, P s1 s2 → P s2 s3 → P s1 s3) →
  (∀ x s y s', fn x s = Ok (y, s') → P s s') →
  map_fn fn xs s = Ok (ys, s') → P s s'.
Proof.
  intros Hrefl Htrans Hfn. revert s ys.
  induction xs as [|x xs IH]; intros s ys Hmap; simpl in *.
  - injection Hmap as <- <-. apply Hrefl.
  - apply bind_Ok in Hmap as ([y s1] & Hx & Hmap).
    apply bind_Ok in Hmap as ([ys1 s2] & Hxs & Hmap).
    injection Hmap as <- <-. eauto.
Qed.

(** X22.  Whenever a call of RandomInsertion returns, the layer's generator
    has kept its key and its counter has moved on: the binomial draw takes a
    seed in every call, and no seed is handed out twice. *)
Theorem insertion_call_advances_generator `{RandomBackend}
    (self : RandomInsertion.t) (g g' : Generator) (inputs outputs : Tensor) :
  RandomInsertion.call self g inputs = Ok (outputs, g') →
  key g' = key g ∧ counter g < counter g'.
Proof.
  assert (∀ rows outs, RandomInsertion.call self g (Ragged rows) = Ok (outs, g') →
                       key g' = key g ∧ counter g < counter g') as Hragged.
  { intros rows outs. unfold RandomInsertion.call, normalize_rank.
    cbv beta iota delta [mbind result_bind]. intros Hrun.
    assert ((RandomInsertion.num_to_select self rows g).2
            = {| key := key g; counter := S (counter g) |}) as Hg1.
    { unfold RandomInsertion.num_to_select. simpl.
      by destruct (RandomInsertion.max_insertions self). }
    destruct (RandomInsertion.num_to_select self rows g) as [nums g1].
    simpl in Hg1. subst g1.
    destruct (map_fn _ _ _) as [[inserted g2]|] eqn:Hmap; [|done].
    injection Hrun as <- <-.
    apply (map_fn_state _ (λ s s', key s' = key s ∧ counter s ≤ counter s'))
      in Hmap.
    - simpl in Hmap. destruct Hmap. split; [done|lia].
    - done.
    - intros s1 s2 s3 [? ?] [? ?]. split; [congruence|lia].
    - intros [row n] s out s' Hloop. simpl in Hloop.
      apply insert_loop_seeds in Hloop as [? ?]. split; [done|lia]. }
  intros Hcall. pose proof (insertion_call_Ok_static _ _ _ _ _ Hcall) as Hstatic.
  destruct inputs as [|l|rows| | |]; try discriminate.
  - apply insertion_call_Vector in Hcall as (row & -> & Hcall). eauto.
  - eauto.
Qed.

Lemma insertion_call_advances_generator_witness :
  key {| key := 42; counter := 8 |} = key (from_seed 42)
  ∧ counter (from_seed 42) < counter {| key := 42; counter := 8 |}.
Proof.
  apply (insertion_call_advances_generator (H := counting_backend)
           (insertion_layer 1 (Some 2%Z) (Some [TStr "wind"]) (Some [TStr "I"]))
           (from_seed 42) _
           (Ragged [hey_i_like; []; keras_and_tensorflow])
           (Ragged [[TStr "Hey"; TStr "wind"; TStr "I"; TStr "like"]; [];
                    [TStr "Keras"; TStr "and"; TStr "wind"; TStr "Tensorflow";
                     TStr "wind"]])).
  reflexivity.
Defined.

(** * The two call patterns *)





Section swaps_batches.
Context `{RandomBackend}.
Variable self : RandomSwaps.t.









End swaps_batches.


